(** * RenewalAnalysis: a two-arm renewal experiment, its tests and its verdict

    A shallow embedding of [RenewalAnalysis.py].  The script is one linear
    pipeline: load the table, check the balance of the two groups, summarise
    each group, run a z-test on the renewal proportions and Welch's t-test on
    the discounted ARR, and print a recommendation.

    Conventions of the embedding.
    - Python floats are idealised as the real numbers [R]; integer columns
      and counts are [Z].  A comparison with a NaN is false in Python, which
      is what the same comparison gives on two equal reals, so the branches
      the script can take are all present in the model.
    - Every [print] of the script is one constructor of [line]; the payload
      is the value printed, before formatting.
    - A run is a value of [Script A]: the lines printed so far and either the
      exception that stopped the script or its result.
    - [proportions_ztest] (statsmodels) and [stats.ttest_ind] (SciPy) are
      library routines.  The pipeline takes them as parameters; module
      [Stats] gives their textbook definitions over [R]. *)

From Stdlib Require Import Reals List String ZArith Bool Lra Lia Psatz.
From Stdlib Require Import Epsilon Classical_Pred_Type.
Import ListNotations.
Open Scope R_scope.

(** ** Comparisons of floats *)

Definition Rltb (x y : R) : bool := if Rlt_dec x y then true else false.
Definition Rgtb (x y : R) : bool := Rltb y x.

(** ** Configuration *)

(** [ALPHA = 0.05] *)
Definition ALPHA : R := 0.05.

(** [DATA_FILE_NAME = "RenewalData.txt"] *)
Definition DATA_FILE_NAME : string := "RenewalData.txt".

(** ** The table *)

(** One row of the CSV file, with the four columns the script reads. *)
Record row : Type := mkRow {
  Customer_ID : Z;
  Test_Group : string;
  Renewal_Status : Z;
  Discounted_ARR : R
}.

Definition DataFrame : Type := list row.

(** [df[df['Test_Group'] == g]] *)
Definition select (g : string) (df : DataFrame) : DataFrame :=
  filter (fun r => String.eqb (Test_Group r) g) df.

(** [len(...)] and [Series.count()], as an integer. *)
Definition len {A : Type} (l : list A) : Z := Z.of_nat (List.length l).

(** [Series.sum()] on an integer column and on a float column. *)
Definition sumZ (l : list Z) : Z := fold_right Z.add 0%Z l.
Definition sumR (l : list R) : R := fold_right Rplus 0 l.

(** [Series.mean()] *)
Definition mean (l : list R) : R := sumR l / IZR (len l).

(** Sum of the squared deviations from the mean. *)
Definition sum_sq_dev (l : list R) : R :=
  sumR (map (fun x => (x - mean l) * (x - mean l)) l).

(** Sample variance, Bessel-corrected ([ddof = 1]).  The libraries leave
    it undefined (NaN) for a sample of one, where this quotient is 0: the
    statements about Welch's test that depend on it assume at least two
    observations in each sample. *)
Definition var (l : list R) : R := sum_sq_dev l / (IZR (len l) - 1).

(** [Series.std()]: the sample standard deviation; NaN ([None]) for a group
    of fewer than two rows. *)
Definition std (l : list R) : option R :=
  if (len l <? 2)%Z then None else Some (sqrt (var l)).

(** The distinct labels of the [Test_Group] column, the index of
    [value_counts()] and of [groupby('Test_Group')]. *)
Definition labels (df : DataFrame) : list string :=
  nodup string_dec (map Test_Group df).

(** A pandas Series or DataFrame indexed by group label. *)
Definition indexed (A : Type) : Type := list (string * A).

(** [s[k]] and [t.loc[k, ...]]: [None] is Python's [KeyError]. *)
Fixpoint loc {A : Type} (k : string) (t : indexed A) : option A :=
  match t with
  | [] => None
  | (k', v) :: t' => if String.eqb k k' then Some v else loc k t'
  end.

(** [df['Test_Group'].value_counts()], for a column in which every row
    carries a label (a [string] here; pandas leaves rows without a label
    out of the counts).  The entries follow [labels], not the counts:
    the script only looks labels up, so the order plays no part. *)
Definition value_counts (df : DataFrame) : indexed Z :=
  map (fun g => (g, len (select g df))) (labels df).

(** One line of [grouped_stats]. *)
Record group_stats : Type := mkStats {
  Total_Customers : Z;
  Renewal_Rate : R;
  Avg_Discounted_ARR : R;
  Std_Discounted_ARR : option R
}.

Definition agg (rows : DataFrame) : group_stats :=
  {| Total_Customers := len (map Customer_ID rows);
     Renewal_Rate := mean (map (fun r => IZR (Renewal_Status r)) rows);
     Avg_Discounted_ARR := mean (map Discounted_ARR rows);
     Std_Discounted_ARR := std (map Discounted_ARR rows) |}.

(** [df.groupby('Test_Group').agg(...)] *)
Definition groupby_agg (df : DataFrame) : indexed group_stats :=
  map (fun g => (g, agg (select g df))) (labels df).

(** ** What the script prints *)

Inductive group : Type := GroupA | GroupB.

Definition label (g : group) : string :=
  match g with GroupA => "A" | GroupB => "B" end.

Inductive line : Type :=
  | Banner
  | FatalFileNotFound (name : string)
  | FatalHint
  | HeadingQuality
  | GroupCounts (counts : indexed Z)
  | WarningUnbalanced
  | ChecksComplete
  | HeadingDescriptive
  | StatsTable (t : indexed group_stats)
  | HeadingZTest
  | ZFormulaTitle
  | ZFormulaText
  | TestInputs
  | ZInput (g : group) (n k : Z) (p : R)
  | ZDifference (d : R)
  | Rule
  | ZStatistic (z : R)
  | PValue (p : R)
  | RenewalReject (p alpha : R)
  | RenewalFailToReject (p alpha : R)
  | HeadingTTest
  | TFormulaTitle
  | TFormulaText
  | TInput (g : group) (n : Z) (m : R) (s : option R)
  | TDifference (d : R)
  | TStatistic (t : R)
  | ArrReject (p alpha : R)
  | ArrFailToReject (p alpha : R)
  | HeadingFinal
  | ClearWinner (g : group)
  | ClearRenewal (winner loser : R)
  | ClearArr (winner loser : R)
  | ActionImplement (g : group)
  | MixedResults
  | MixedRenewal (a b : R)
  | MixedArr (a b : R)
  | ActionStakeholders
  | OnlyOneMetric
  | RenewalSignificant (winner : group) (a b : R)
  | RenewalNotSignificant (a b : R)
  | ArrSignificant (winner : group) (a b : R)
  | ArrNotSignificant (a b : R)
  | ActionFurtherData
  | NeitherMetric
  | NeitherRenewal (a b : R)
  | NeitherArr (a b : R)
  | ActionKeepDefault.

(** ** Runs of the script *)

Inductive exn : Type :=
  | KeyError (key : string)
  | SystemExit.

Definition Script (A : Type) : Type := (list line * (exn + A))%type.

Definition ret {A : Type} (a : A) : Script A := ([], inr a).

Definition bind {A B : Type} (m : Script A) (f : A -> Script B) : Script B :=
  match m with
  | (out, inl e) => (out, inl e)
  | (out, inr a) => let (out', r) := f a in (out ++ out', r)
  end.

Definition print (l : line) : Script unit := ([l], inr tt).
Definition raise {A : Type} (e : exn) : Script A := ([], inl e).

(** [t[k]] inside the script: the value, or an uncaught [KeyError]. *)
Definition lookup {A : Type} (k : string) (t : indexed A) : Script A :=
  match loc k t with
  | Some v => ret v
  | None => raise (KeyError k)
  end.

Declare Scope script_scope.
Delimit Scope script_scope with script.
Notation "x <- m ;; k" := (bind m (fun x => k))
  (at level 61, m at next level, right associativity) : script_scope.
Notation "m ;; k" := (bind m (fun _ => k))
  (at level 61, right associativity) : script_scope.
Open Scope script_scope.

(** How a run of the script ends, as the operating system sees it. *)
Inductive termination : Type :=
  | Finished
  | SilentExit
  | UnhandledCrash (e : exn).

Definition ending {A : Type} (s : Script A) : termination :=
  match snd s with
  | inr _ => Finished
  | inl SystemExit => SilentExit
  | inl e => UnhandledCrash e
  end.

Definition output {A : Type} (s : Script A) : list line := fst s.

(** ** The script *)

Section Pipeline.

(** The significance level the script is configured with. *)
Variable alpha : R.

(** [proportions_ztest(count=[kA, kB], nobs=[nA, nB])] and
    [stats.ttest_ind(a, b, equal_var=False)]: each returns the statistic
    and the p-value. *)
Variable proportions_ztest : Z * Z -> Z * Z -> R * R.
Variable ttest_ind : list R -> list R -> R * R.

(** *** 1. Load data

    [None] stands for a file that [pd.read_csv] does not find. *)
Definition load_data (file : option DataFrame) : Script DataFrame :=
  print Banner ;;
  match file with
  | Some df => ret df
  | None =>
      print (FatalFileNotFound DATA_FILE_NAME) ;;
      print FatalHint ;;
      raise SystemExit
  end.

(** *** 1.5 Data quality checks *)

(** [abs(count_A - count_B) / total_obs > 0.05] *)
Definition unbalanced (count_A count_B total_obs : Z) : bool :=
  Rgtb (Rabs (IZR (count_A - count_B)) / IZR total_obs) 0.05.

Definition balance_check (group_counts : indexed Z) (total_obs : Z)
  : Script unit :=
  if (0 <? total_obs)%Z then
    count_A <- lookup "A" group_counts ;;
    count_B <- lookup "B" group_counts ;;
    if unbalanced count_A count_B total_obs
    then print WarningUnbalanced
    else ret tt
  else ret tt.

Definition data_quality_checks (df : DataFrame) : Script unit :=
  print HeadingQuality ;;
  print (GroupCounts (value_counts df)) ;;
  balance_check (value_counts df) (len df) ;;
  print ChecksComplete.

(** *** 2. Descriptive statistics

    Returns the lines of [grouped_stats] for "A" and for "B", from which
    the script reads [raw_renewal_A], [raw_arr_A], [std_A] and so on. *)
Definition descriptive_statistics (df : DataFrame)
  : Script (group_stats * group_stats) :=
  print HeadingDescriptive ;;
  stats_A <- lookup "A" (groupby_agg df) ;;
  stats_B <- lookup "B" (groupby_agg df) ;;
  print (StatsTable (groupby_agg df)) ;;
  ret (stats_A, stats_B).

(** *** 3. Z-test for the renewal rate *)

(** The dynamic conclusion of the z-test. *)
Definition z_conclusion (p_value_prop : R) : Script unit :=
  if Rltb p_value_prop alpha
  then print (RenewalReject p_value_prop alpha)
  else print (RenewalFailToReject p_value_prop alpha).

Definition z_test (df : DataFrame) (raw_renewal_A raw_renewal_B : R)
  : Script R :=
  print HeadingZTest ;;
  print ZFormulaTitle ;;
  print ZFormulaText ;;
  let renewals_A := sumZ (map Renewal_Status (select "A" df)) in
  let nobs_A := len (map Renewal_Status (select "A" df)) in
  let renewals_B := sumZ (map Renewal_Status (select "B" df)) in
  let nobs_B := len (map Renewal_Status (select "B" df)) in
  print TestInputs ;;
  print (ZInput GroupA nobs_A renewals_A raw_renewal_A) ;;
  print (ZInput GroupB nobs_B renewals_B raw_renewal_B) ;;
  print (ZDifference (raw_renewal_A - raw_renewal_B)) ;;
  print Rule ;;
  let (stat_prop, p_value_prop) :=
    proportions_ztest (renewals_A, renewals_B) (nobs_A, nobs_B) in
  print (ZStatistic stat_prop) ;;
  print (PValue p_value_prop) ;;
  z_conclusion p_value_prop ;;
  ret p_value_prop.

(** *** 4. T-test for the average discounted ARR *)

(** The dynamic conclusion of the t-test. *)
Definition t_conclusion (p_value_arr : R) : Script unit :=
  if Rltb p_value_arr alpha
  then print (ArrReject p_value_arr alpha)
  else print (ArrFailToReject p_value_arr alpha).

Definition t_test (df : DataFrame) (stats_A stats_B : group_stats)
  : Script R :=
  print HeadingTTest ;;
  print TFormulaTitle ;;
  print TFormulaText ;;
  let arr_A := map Discounted_ARR (select "A" df) in
  let arr_B := map Discounted_ARR (select "B" df) in
  let nobs_A := len (map Renewal_Status (select "A" df)) in
  let nobs_B := len (map Renewal_Status (select "B" df)) in
  print TestInputs ;;
  print (TInput GroupA nobs_A (Avg_Discounted_ARR stats_A)
                (Std_Discounted_ARR stats_A)) ;;
  print (TInput GroupB nobs_B (Avg_Discounted_ARR stats_B)
                (Std_Discounted_ARR stats_B)) ;;
  print (TDifference (Avg_Discounted_ARR stats_A - Avg_Discounted_ARR stats_B)) ;;
  print Rule ;;
  let (stat_arr, p_value_arr) := ttest_ind arr_A arr_B in
  print (TStatistic stat_arr) ;;
  print (PValue p_value_arr) ;;
  t_conclusion p_value_arr ;;
  ret p_value_arr.

(** *** 5. Final business interpretation *)

Definition renewal_is_significant (p_value_prop : R) : bool :=
  Rltb p_value_prop alpha.

Definition arr_is_significant (p_value_arr : R) : bool :=
  Rltb p_value_arr alpha.

(** ['A' if a > b else 'B'] *)
Definition winner (a b : R) : group :=
  if Rgtb a b then GroupA else GroupB.

Definition final_interpretation
    (p_value_prop p_value_arr : R)
    (raw_renewal_A raw_renewal_B raw_arr_A raw_arr_B : R) : Script unit :=
  print HeadingFinal ;;
  if renewal_is_significant p_value_prop && arr_is_significant p_value_arr
  then
    if Rgtb raw_renewal_A raw_renewal_B && Rgtb raw_arr_A raw_arr_B then
      print (ClearWinner GroupA) ;;
      print (ClearRenewal raw_renewal_A raw_renewal_B) ;;
      print (ClearArr raw_arr_A raw_arr_B) ;;
      print (ActionImplement GroupA)
    else if Rgtb raw_renewal_B raw_renewal_A && Rgtb raw_arr_B raw_arr_A then
      print (ClearWinner GroupB) ;;
      print (ClearRenewal raw_renewal_B raw_renewal_A) ;;
      print (ClearArr raw_arr_B raw_arr_A) ;;
      print (ActionImplement GroupB)
    else
      print MixedResults ;;
      print (MixedRenewal raw_renewal_A raw_renewal_B) ;;
      print (MixedArr raw_arr_A raw_arr_B) ;;
      print ActionStakeholders
  else if renewal_is_significant p_value_prop
          || arr_is_significant p_value_arr
  then
    print OnlyOneMetric ;;
    (if renewal_is_significant p_value_prop
     then print (RenewalSignificant (winner raw_renewal_A raw_renewal_B)
                   raw_renewal_A raw_renewal_B)
     else print (RenewalNotSignificant raw_renewal_A raw_renewal_B)) ;;
    (if arr_is_significant p_value_arr
     then print (ArrSignificant (winner raw_arr_A raw_arr_B)
                   raw_arr_A raw_arr_B)
     else print (ArrNotSignificant raw_arr_A raw_arr_B)) ;;
    print ActionFurtherData
  else
    print NeitherMetric ;;
    print (NeitherRenewal raw_renewal_A raw_renewal_B) ;;
    print (NeitherArr raw_arr_A raw_arr_B) ;;
    print ActionKeepDefault.

(** *** The whole script *)

(** Steps 2 to 5: everything after the data quality checks. *)
Definition analysis (df : DataFrame) : Script unit :=
  s <- descriptive_statistics df ;;
  let (stats_A, stats_B) := s in
  p_value_prop <- z_test df (Renewal_Rate stats_A) (Renewal_Rate stats_B) ;;
  p_value_arr <- t_test df stats_A stats_B ;;
  final_interpretation p_value_prop p_value_arr
    (Renewal_Rate stats_A) (Renewal_Rate stats_B)
    (Avg_Discounted_ARR stats_A) (Avg_Discounted_ARR stats_B).

Definition run (file : option DataFrame) : Script unit :=
  df <- load_data file ;;
  data_quality_checks df ;;
  analysis df.

End Pipeline.

(** ** The two library tests *)

Module Stats.

(** *** The standard normal law *)

(** The kernel of the standard normal density. *)
Definition gauss (t : R) : R := exp (- (t * t / 2)).

Definition gauss_integrable (a b : R) : Riemann_integrable gauss a b.
Proof.
  assert (C : continuity gauss) by (unfold gauss; reg).
  destruct (Rle_dec a b) as [Hab | Hab].
  - apply continuity_implies_RiemannInt; [exact Hab | intros; apply C].
  - apply RiemannInt_P1, continuity_implies_RiemannInt;
      [lra | intros; apply C].
Defined.

(** Modelled from the spec: the standard normal CDF [Phi] of section 4.3,
    which statsmodels takes from SciPy: one half plus the area of the
    density [gauss t / sqrt (2 PI)] between 0 and [x]. *)
Definition norm_cdf (x : R) : R :=
  1 / 2 + RiemannInt (gauss_integrable 0 x) / sqrt (2 * PI).

(** The survival function, [1 - Phi]. *)
Definition norm_sf (x : R) : R := 1 - norm_cdf x.

(** *** The two-sample z-test for proportions *)

(** The steps of section 4.3 of the specification, for the counts
    [count = (k_A, k_B)] and the sizes [nobs = (n_A, n_B)]. *)

(** Step 1: the pooled proportion [(k_A + k_B) / (n_A + n_B)]. *)
Definition pooled_proportion (count nobs : Z * Z) : R :=
  IZR (fst count + snd count) / IZR (fst nobs + snd nobs).

(** Step 2: the pooled standard error. *)
Definition pooled_se (count nobs : Z * Z) : R :=
  sqrt (pooled_proportion count nobs * (1 - pooled_proportion count nobs)
        * (1 / IZR (fst nobs) + 1 / IZR (snd nobs))).

(** Step 3: the difference of the sample proportions over the standard
    error. *)
Definition z_statistic (count nobs : Z * Z) : R :=
  (IZR (fst count) / IZR (fst nobs) - IZR (snd count) / IZR (snd nobs))
  / pooled_se count nobs.

(** Step 4: the two-sided p-value [2 (1 - Phi |z|)]. *)
Definition two_sided_normal (z : R) : R := 2 * norm_sf (Rabs z).

(** Modelled from the spec: [proportions_ztest] is a routine of the
    statsmodels library, whose code is not in the repository.  Section 4.3
    of the specification gives its algorithm, the one statsmodels documents
    for two samples; the result is the statistic and the p-value. *)
Definition proportions_ztest (count nobs : Z * Z) : R * R :=
  (z_statistic count nobs, two_sided_normal (z_statistic count nobs)).

(** *** Welch's two-sample t-test *)

(** The steps of section 4.4 of the specification, for the two samples
    [a] and [b]. *)

(** Step 2: the standard error [sqrt (s_A^2 / n_A + s_B^2 / n_B)]. *)
Definition welch_se (a b : list R) : R :=
  sqrt (var a / IZR (len a) + var b / IZR (len b)).

(** Step 3: the statistic. *)
Definition welch_t (a b : list R) : R := (mean a - mean b) / welch_se a b.

(** Step 4: the Welch-Satterthwaite degrees of freedom. *)
Definition welch_df (a b : list R) : R :=
  welch_se a b ^ 4
  / ((var a / IZR (len a)) ^ 2 / (IZR (len a) - 1)
     + (var b / IZR (len b)) ^ 2 / (IZR (len b) - 1)).

(** Student's law with [nu] degrees of freedom has a density proportional
    to [(1 + u^2/nu)^(-(nu+1)/2)]. *)
Definition student_kernel (nu u : R) : R :=
  Rpower (1 + u * u / nu) (- ((nu + 1) / 2)).

Definition tends_to_at_minus_infinity (f : R -> R) (l : R) : Prop :=
  forall eps : R, 0 < eps ->
    exists M : R, forall u : R, u < M -> Rabs (f u - l) < eps.

Definition tends_to_at_plus_infinity (f : R -> R) (l : R) : Prop :=
  forall eps : R, 0 < eps ->
    exists M : R, forall u : R, M < u -> Rabs (f u - l) < eps.

(** [T] is the CDF of Student's law: its derivative is the kernel up to
    the normalising constant, and it goes from 0 to 1. *)
Definition is_student_cdf (nu : R) (T : R -> R) : Prop :=
  (exists c : R, forall u : R,
      derivable_pt_lim T u (c * student_kernel nu u))
  /\ tends_to_at_minus_infinity T 0
  /\ tends_to_at_plus_infinity T 1.

(** Modelled from the spec: the CDF [T_nu] of Student's law of section 4.4,
    which SciPy evaluates for a real number [nu] of degrees of freedom; it
    is taken by description, as the function that [is_student_cdf nu]
    characterises. *)
Definition student_cdf (nu : R) : R -> R :=
  epsilon (inhabits (fun _ : R => 0)) (is_student_cdf nu).

(** Step 5: the two-sided p-value [2 (1 - T_nu |t|)]. *)
Definition two_sided_student (nu t : R) : R :=
  2 * (1 - student_cdf nu (Rabs t)).

(** Modelled from the spec: [stats.ttest_ind] is a routine of the SciPy
    library, whose code is not in the repository.  Section 4.4 of the
    specification gives the algorithm of the call with [equal_var=False],
    Welch's test; the result is the statistic and the p-value. *)
Definition ttest_ind (a b : list R) : R * R :=
  (welch_t a b, two_sided_student (welch_df a b) (welch_t a b)).

End Stats.

(** The script as it is configured and linked: [ALPHA = 0.05], the z-test of
    statsmodels and the t-test of SciPy. *)
Definition RenewalAnalysis (file : option DataFrame) : Script unit :=
  run ALPHA Stats.proportions_ztest Stats.ttest_ind file.

(** ** Vocabulary of the specification *)

(** The group a line of the report names as a winner or recommends. *)
Definition names_group (l : line) : option group :=
  match l with
  | ClearWinner g | ActionImplement g
  | RenewalSignificant g _ _ | ArrSignificant g _ _ => Some g
  | _ => None
  end.

(** The four lines of the "conflicting winners" recommendation. *)
Definition mixed_lines (rA rB aA aB : R) : list line :=
  [MixedResults; MixedRenewal rA rB; MixedArr aA aB; ActionStakeholders].

(** The lines printed when only one metric is significant and the winner
    named for it is [w]. *)
Definition only_renewal_lines (w : group) (rA rB aA aB : R) : list line :=
  [OnlyOneMetric; RenewalSignificant w rA rB; ArrNotSignificant aA aB;
   ActionFurtherData].

Definition only_arr_lines (w : group) (rA rB aA aB : R) : list line :=
  [OnlyOneMetric; RenewalNotSignificant rA rB; ArrSignificant w aA aB;
   ActionFurtherData].

Definition is_warning (l : line) : bool :=
  match l with WarningUnbalanced => true | _ => false end.

(** What the test steps report, read off the printed lines. *)
Definition reports_renewal_significant (out : list line) : bool :=
  existsb (fun l => match l with RenewalReject _ _ => true | _ => false end)
          out.

Definition reports_arr_significant (out : list line) : bool :=
  existsb (fun l => match l with ArrReject _ _ => true | _ => false end) out.

(** What the final recommendation treats as significant: both metrics in
    the two "clear winner" and in the "mixed" recommendations, one metric
    where that metric is printed as significant. *)
Definition verdict_renewal_significant (out : list line) : bool :=
  existsb (fun l => match l with
                    | ClearWinner _ | MixedResults
                    | RenewalSignificant _ _ _ => true
                    | _ => false
                    end) out.

Definition verdict_arr_significant (out : list line) : bool :=
  existsb (fun l => match l with
                    | ClearWinner _ | MixedResults
                    | ArrSignificant _ _ _ => true
                    | _ => false
                    end) out.

(** A dataset of [a] rows of group "A" followed by [b] rows of group "B". *)
Definition two_groups (a b : nat) : DataFrame :=
  repeat (mkRow 0 "A" 1 100) a ++ repeat (mkRow 0 "B" 0 90) b.

(** The p-values the script obtains from the two tests on a table. *)
Definition p_value_prop_of (proportions_ztest : Z * Z -> Z * Z -> R * R)
    (df : DataFrame) : R :=
  snd (proportions_ztest
         (sumZ (map Renewal_Status (select "A" df)),
          sumZ (map Renewal_Status (select "B" df)))
         (len (map Renewal_Status (select "A" df)),
          len (map Renewal_Status (select "B" df)))).

Definition p_value_arr_of (ttest_ind : list R -> list R -> R * R)
    (df : DataFrame) : R :=
  snd (ttest_ind (map Discounted_ARR (select "A" df))
                 (map Discounted_ARR (select "B" df))).

(** A line that is neither the warning, nor a conclusion of a test, nor
    part of a recommendation that names or implies significance. *)
Definition plain (l : line) : Prop :=
  names_group l = None /\ is_warning l = false
  /\ reports_renewal_significant [l] = false
  /\ reports_arr_significant [l] = false
  /\ verdict_renewal_significant [l] = false
  /\ verdict_arr_significant [l] = false.

(** ** The scenarios of the specification *)

(** Scenario 1: 8 renewals out of 10 in group "A", 5 out of 10 in "B". *)
Definition scenario1 : DataFrame :=
  repeat (mkRow 0 "A" 1 100) 8 ++ repeat (mkRow 0 "A" 0 100) 2
  ++ repeat (mkRow 0 "B" 1 100) 5 ++ repeat (mkRow 0 "B" 0 100) 5.

(** Scenario 2: the continuous outcome of the two groups. *)
Definition scenario2_A : list R := [100; 102; 98; 101; 99].
Definition scenario2_B : list R := [110; 108; 112; 109; 111].

(** ** Closed forms used in the proofs *)

(** Partial sums of the series of [exp (- t^2 / 2)], which enclose the
    normal kernel for [t^2 <= 2], and their primitives that vanish at 0. *)
Definition gauss_upper (t : R) : R :=
  1 - t ^ 2 / 2 + t ^ 4 / 8 - t ^ 6 / 48 + t ^ 8 / 384.

Definition gauss_lower (t : R) : R := gauss_upper t - t ^ 10 / 3840.

Definition area_upper (x : R) : R :=
  x - x ^ 3 / 6 + x ^ 5 / 40 - x ^ 7 / 336 + x ^ 9 / 3456.

Definition area_lower (x : R) : R := area_upper x - x ^ 11 / 42240.

(** The CDF of Student's law with 8 degrees of freedom: with
    [s = u / sqrt (8 + u^2)] it is
    [1/2 + 35/32 (s - s^3 + 3/5 s^5 - 1/7 s^7)], and the normalising
    constant of the density is [35 / (32 sqrt 8)]. *)
Definition student8_ratio (u : R) : R := u / sqrt (8 + u * u).

Definition student8_poly (s : R) : R :=
  s - s ^ 3 + 3 / 5 * s ^ 5 - s ^ 7 / 7.

Definition student8_cdf (u : R) : R :=
  1 / 2 + 35 / 32 * student8_poly (student8_ratio u).

Definition student8_const : R := 35 / (32 * sqrt 8).

(** * Properties *)

(** ** Comparisons *)

Lemma Rltb_true (x y : R) : Rltb x y = true <-> x < y.
Proof. unfold Rltb; destruct (Rlt_dec x y); split; intros; try easy. Qed.

Lemma Rltb_false (x y : R) : Rltb x y = false <-> y <= x.
Proof.
  unfold Rltb; destruct (Rlt_dec x y); split; intros; try easy; lra.
Qed.

Lemma Rgtb_true (x y : R) : Rgtb x y = true <-> x > y.
Proof. unfold Rgtb; rewrite Rltb_true; lra. Qed.

Lemma Rgtb_false (x y : R) : Rgtb x y = false <-> x <= y.
Proof. unfold Rgtb; rewrite Rltb_false; lra. Qed.

Lemma Rltb_irrefl (x : R) : Rltb x x = false.
Proof. apply Rltb_false; lra. Qed.

Lemma Rgtb_irrefl (x : R) : Rgtb x x = false.
Proof. apply Rltb_irrefl. Qed.

(** Decide every float comparison of the goal, keeping the inequality. *)
Ltac compare_floats :=
  repeat match goal with
  | |- context [Rgtb ?a ?b] =>
      let E := fresh "E" in
      destruct (Rgtb a b) eqn:E;
      [apply Rgtb_true in E | apply Rgtb_false in E]
  | |- context [Rltb ?a ?b] =>
      let E := fresh "E" in
      destruct (Rltb a b) eqn:E;
      [apply Rltb_true in E | apply Rltb_false in E]
  end.

(** ** Tables indexed by group *)

Lemma loc_index {T : Type} (f : string -> T) (k : string) (ls : list string) :
  loc k (map (fun g => (g, f g)) ls)
  = if in_dec string_dec k ls then Some (f k) else None.
Proof.
  induction ls as [| g ls IH]; simpl; [reflexivity|].
  destruct (String.eqb k g) eqn:E.
  - apply String.eqb_eq in E.
    destruct (string_dec g k); [rewrite E; reflexivity | congruence].
  - apply String.eqb_neq in E. rewrite IH.
    destruct (string_dec g k) as [E' | N']; [congruence|].
    destruct (in_dec string_dec k ls); reflexivity.
Qed.

Lemma In_labels (g : string) (df : DataFrame) :
  In g (labels df) <-> In g (map Test_Group df).
Proof. apply nodup_In. Qed.

Lemma loc_present {T : Type} (f : string -> T) (g : string) (df : DataFrame) :
  In g (map Test_Group df) ->
  loc g (map (fun k => (k, f k)) (labels df)) = Some (f g).
Proof.
  intros H. rewrite loc_index.
  destruct (in_dec string_dec g (labels df)) as [_ | N]; [reflexivity|].
  exfalso; apply N, In_labels, H.
Qed.

Lemma loc_absent {T : Type} (f : string -> T) (g : string) (df : DataFrame) :
  ~ In g (map Test_Group df) ->
  loc g (map (fun k => (k, f k)) (labels df)) = None.
Proof.
  intros H. rewrite loc_index.
  destruct (in_dec string_dec g (labels df)) as [I | _]; [|reflexivity].
  exfalso; apply H, In_labels, I.
Qed.

Lemma len_pos_nonempty {T : Type} (l : list T) : l <> [] -> (0 <? len l)%Z = true.
Proof.
  destruct l; [congruence|]. intros _.
  apply Z.ltb_lt. unfold len. cbn [List.length]. lia.
Qed.

(** ** Runs *)

Lemma bind_returns {T U : Type} (m : Script T) (f : T -> Script U)
      (out : list line) (a : T) :
  m = (out, inr a) -> bind m f = (out ++ fst (f a), snd (f a)).
Proof. intros ->. unfold bind. destruct (f a); reflexivity. Qed.

Lemma bind_raises {T U : Type} (m : Script T) (f : T -> Script U)
      (out : list line) (e : exn) :
  m = (out, inl e) -> bind m f = (out, inl e).
Proof. intros ->. reflexivity. Qed.

Section Steps.

Variable alpha : R.
Variable proportions_ztest : Z * Z -> Z * Z -> R * R.
Variable ttest_ind : list R -> list R -> R * R.

Lemma z_conclusion_returns (p : R) :
  z_conclusion alpha p
  = ([if Rltb p alpha then RenewalReject p alpha
      else RenewalFailToReject p alpha], inr tt).
Proof. unfold z_conclusion; destruct (Rltb p alpha); reflexivity. Qed.

Lemma t_conclusion_returns (p : R) :
  t_conclusion alpha p
  = ([if Rltb p alpha then ArrReject p alpha
      else ArrFailToReject p alpha], inr tt).
Proof. unfold t_conclusion; destruct (Rltb p alpha); reflexivity. Qed.

Ltac all_plain Hl :=
  cbn in Hl;
  repeat (destruct Hl as [<- | Hl]; [repeat split; reflexivity|]);
  destruct Hl.

Lemma z_test_returns (df : DataFrame) (rA rB : R) :
  exists pre : list line,
    z_test alpha proportions_ztest df rA rB
    = (pre ++ output (z_conclusion alpha (p_value_prop_of proportions_ztest df)),
       inr (p_value_prop_of proportions_ztest df))
    /\ Forall plain pre.
Proof.
  unfold z_test, p_value_prop_of.
  destruct (proportions_ztest _ _) as [z p]. cbn [snd].
  rewrite z_conclusion_returns. cbn.
  eexists [_; _; _; _; _; _; _; _; _; _]. split; [reflexivity|].
  apply Forall_forall; intros l Hl; all_plain Hl.
Qed.

Lemma t_test_returns (df : DataFrame) (sA sB : group_stats) :
  exists pre : list line,
    t_test alpha ttest_ind df sA sB
    = (pre ++ output (t_conclusion alpha (p_value_arr_of ttest_ind df)),
       inr (p_value_arr_of ttest_ind df))
    /\ Forall plain pre.
Proof.
  unfold t_test, p_value_arr_of.
  destruct (ttest_ind _ _) as [t p]. cbn [snd].
  rewrite t_conclusion_returns. cbn.
  eexists [_; _; _; _; _; _; _; _; _; _]. split; [reflexivity|].
  apply Forall_forall; intros l Hl; all_plain Hl.
Qed.

Lemma final_interpretation_returns (pp pa rA rB aA aB : R) :
  snd (final_interpretation alpha pp pa rA rB aA aB) = inr tt.
Proof.
  unfold final_interpretation, renewal_is_significant, arr_is_significant.
  compare_floats; reflexivity.
Qed.

Lemma descriptive_statistics_returns (df : DataFrame) :
  In "A"%string (map Test_Group df) -> In "B"%string (map Test_Group df) ->
  descriptive_statistics df
  = ([HeadingDescriptive; StatsTable (groupby_agg df)],
     inr (agg (select "A" df), agg (select "B" df))).
Proof.
  intros HA HB. unfold descriptive_statistics, lookup, groupby_agg.
  rewrite (loc_present _ _ _ HA), (loc_present _ _ _ HB). reflexivity.
Qed.

(** A run on a table that holds both groups: every step returns. *)
Lemma analysis_returns (df : DataFrame) :
  In "A"%string (map Test_Group df) -> In "B"%string (map Test_Group df) ->
  exists pre mid : list line,
    analysis alpha proportions_ztest ttest_ind df
    = (pre ++ output (z_conclusion alpha (p_value_prop_of proportions_ztest df))
           ++ mid ++ output (t_conclusion alpha (p_value_arr_of ttest_ind df))
           ++ output (final_interpretation alpha
                        (p_value_prop_of proportions_ztest df) (p_value_arr_of ttest_ind df)
                        (Renewal_Rate (agg (select "A" df)))
                        (Renewal_Rate (agg (select "B" df)))
                        (Avg_Discounted_ARR (agg (select "A" df)))
                        (Avg_Discounted_ARR (agg (select "B" df)))),
       inr tt)
    /\ Forall plain pre /\ Forall plain mid.
Proof.
  intros HA HB.
  destruct (z_test_returns df (Renewal_Rate (agg (select "A" df)))
              (Renewal_Rate (agg (select "B" df)))) as (zpre & Ez & Hz).
  destruct (t_test_returns df (agg (select "A" df)) (agg (select "B" df)))
    as (tpre & Et & Ht).
  exists ([HeadingDescriptive; StatsTable (groupby_agg df)] ++ zpre), tpre.
  split; [|split; [|exact Ht]].
  - unfold analysis.
    rewrite (bind_returns _ _ _ _ (descriptive_statistics_returns df HA HB)).
    cbv beta iota.
    rewrite (bind_returns _ _ _ _ Ez), (bind_returns _ _ _ _ Et).
    cbn [fst snd]. rewrite final_interpretation_returns.
    unfold output. rewrite <- !app_assoc. reflexivity.
  - apply Forall_app; split; [|exact Hz].
    apply Forall_forall; intros l Hl; all_plain Hl.
Qed.

Lemma present_nonempty (g : string) (df : DataFrame) :
  In g (map Test_Group df) -> (0 <? len df)%Z = true.
Proof.
  intros H. apply len_pos_nonempty. intros ->. destruct H.
Qed.

Lemma data_quality_checks_returns (df : DataFrame) :
  In "A"%string (map Test_Group df) -> In "B"%string (map Test_Group df) ->
  data_quality_checks df
  = (HeadingQuality :: GroupCounts (value_counts df)
       :: (if unbalanced (len (select "A" df)) (len (select "B" df)) (len df)
           then [WarningUnbalanced] else [])
       ++ [ChecksComplete],
     inr tt).
Proof.
  intros HA HB. unfold data_quality_checks, balance_check, lookup.
  rewrite (present_nonempty _ _ HA). unfold value_counts.
  rewrite (loc_present _ _ _ HA), (loc_present _ _ _ HB).
  cbv [bind ret print app].
  destruct (unbalanced _ _ _); reflexivity.
Qed.

Lemma run_returns (df : DataFrame) :
  In "A"%string (map Test_Group df) -> In "B"%string (map Test_Group df) ->
  run alpha proportions_ztest ttest_ind (Some df)
  = (Banner :: HeadingQuality :: GroupCounts (value_counts df)
       :: (if unbalanced (len (select "A" df)) (len (select "B" df)) (len df)
           then [WarningUnbalanced] else [])
       ++ ChecksComplete
       :: output (analysis alpha proportions_ztest ttest_ind df),
     inr tt).
Proof.
  intros HA HB. unfold run, load_data.
  destruct (analysis_returns df HA HB) as (pre & mid & Ea & _).
  rewrite (bind_returns _ _ [Banner] df) by reflexivity.
  rewrite (bind_returns _ _ _ _ (data_quality_checks_returns df HA HB)).
  rewrite Ea. cbn [fst snd output app]. rewrite <- !app_assoc. reflexivity.
Qed.

(** A run on a table that lacks one of the two groups. *)
Lemma run_raises (df : DataFrame) :
  ~ In "A"%string (map Test_Group df) \/ ~ In "B"%string (map Test_Group df) ->
  run alpha proportions_ztest ttest_ind (Some df)
  = (Banner :: HeadingQuality :: GroupCounts (value_counts df)
       :: match df with
          | [] => [ChecksComplete; HeadingDescriptive]
          | _ :: _ => []
          end,
     inl (KeyError (if in_dec string_dec "A"%string (map Test_Group df)
                    then "B"%string else "A"%string))).
Proof.
  intros H. unfold run, load_data.
  rewrite (bind_returns _ _ [Banner] df) by reflexivity.
  destruct df as [| r df']; [reflexivity|].
  set (df := r :: df') in *.
  assert (Hn : (0 <? len df)%Z = true) by (apply len_pos_nonempty; discriminate).
  destruct (in_dec string_dec "A"%string (map Test_Group df)) as [HA | HA].
  - destruct H as [H | HB]; [contradiction|].
    rewrite (bind_raises (data_quality_checks df) _
               [HeadingQuality; GroupCounts (value_counts df)]
               (KeyError "B")); [reflexivity|].
    unfold data_quality_checks, balance_check, lookup, value_counts.
    rewrite Hn, (loc_present _ _ _ HA), (loc_absent _ _ _ HB). reflexivity.
  - rewrite (bind_raises (data_quality_checks df) _
               [HeadingQuality; GroupCounts (value_counts df)]
               (KeyError "A")); [reflexivity|].
    unfold data_quality_checks, balance_check, lookup, value_counts.
    rewrite Hn, (loc_absent _ _ _ HA). reflexivity.
Qed.

End Steps.

Lemma unbalanced_spec (count_A count_B total_obs : Z) :
  (0 < total_obs)%Z ->
  unbalanced count_A count_B total_obs = true
  <-> Rabs (IZR count_A - IZR count_B) > 5 / 100 * IZR total_obs.
Proof.
  intros Hn. apply IZR_lt in Hn.
  unfold unbalanced. rewrite Rgtb_true, minus_IZR.
  split; intros H.
  - apply Rmult_lt_reg_r with (/ IZR total_obs);
      [apply Rinv_0_lt_compat; exact Hn|].
    replace (5 / 100 * IZR total_obs * / IZR total_obs) with (5 / 100)
      by (field; lra).
    exact H.
  - apply Rmult_lt_reg_r with (IZR total_obs); [exact Hn|].
    replace (Rabs (IZR count_A - IZR count_B) / IZR total_obs * IZR total_obs)
      with (Rabs (IZR count_A - IZR count_B)) by (field; lra).
    lra.
Qed.


(** ** The verdict *)

Lemma final_interpretation_cases (alpha pp pa rA rB aA aB : R) :
  final_interpretation alpha pp pa rA rB aA aB
  = (HeadingFinal ::
     (if Rltb pp alpha && Rltb pa alpha then
        if Rgtb rA rB && Rgtb aA aB then
          [ClearWinner GroupA; ClearRenewal rA rB; ClearArr aA aB;
           ActionImplement GroupA]
        else if Rgtb rB rA && Rgtb aB aA then
          [ClearWinner GroupB; ClearRenewal rB rA; ClearArr aB aA;
           ActionImplement GroupB]
        else mixed_lines rA rB aA aB
      else if Rltb pp alpha then
        only_renewal_lines (winner rA rB) rA rB aA aB
      else if Rltb pa alpha then
        only_arr_lines (winner aA aB) rA rB aA aB
      else
        [NeitherMetric; NeitherRenewal rA rB; NeitherArr aA aB;
         ActionKeepDefault]),
     inr tt).
Proof.
  unfold final_interpretation, renewal_is_significant, arr_is_significant.
  destruct (Rltb pp alpha), (Rltb pa alpha); cbn [andb orb];
    repeat match goal with
           | |- context [Rgtb ?a ?b && _] => destruct (Rgtb a b)
           | |- context [true && Rgtb ?a ?b] => destruct (Rgtb a b)
           end; reflexivity.
Qed.


Lemma Forall_plain (out : list line) :
  Forall plain out ->
  existsb is_warning out = false
  /\ reports_renewal_significant out = false
  /\ reports_arr_significant out = false
  /\ verdict_renewal_significant out = false
  /\ verdict_arr_significant out = false.
Proof.
  unfold reports_renewal_significant, reports_arr_significant,
    verdict_renewal_significant, verdict_arr_significant.
  induction 1 as [| l out (_ & Hw & H1 & H2 & H3 & H4) _ IH]; [easy|].
  unfold reports_renewal_significant, reports_arr_significant,
    verdict_renewal_significant, verdict_arr_significant in H1, H2, H3, H4.
  cbn in *. rewrite orb_false_r in H1, H2, H3, H4.
  rewrite Hw, H1, H2, H3, H4. exact IH.
Qed.

Lemma verdict_quiet (alpha pp pa rA rB aA aB : R) :
  existsb is_warning (output (final_interpretation alpha pp pa rA rB aA aB))
  = false.
Proof.
  rewrite final_interpretation_cases.
  destruct (Rltb pp alpha), (Rltb pa alpha), (Rgtb rA rB), (Rgtb aA aB),
    (Rgtb rB rA), (Rgtb aB aA); reflexivity.
Qed.

Lemma verdict_flags (alpha pp pa rA rB aA aB : R) :
  let out := output (final_interpretation alpha pp pa rA rB aA aB) in
  verdict_renewal_significant out = renewal_is_significant alpha pp
  /\ verdict_arr_significant out = arr_is_significant alpha pa
  /\ reports_renewal_significant out = false
  /\ reports_arr_significant out = false.
Proof.
  rewrite final_interpretation_cases.
  unfold renewal_is_significant, arr_is_significant.
  destruct (Rltb pp alpha), (Rltb pa alpha), (Rgtb rA rB), (Rgtb aA aB),
    (Rgtb rB rA), (Rgtb aB aA); repeat split; reflexivity.
Qed.

Lemma conclusion_flags (alpha p : R) :
  reports_renewal_significant (output (z_conclusion alpha p))
  = renewal_is_significant alpha p
  /\ reports_arr_significant (output (t_conclusion alpha p))
     = arr_is_significant alpha p.
Proof.
  rewrite z_conclusion_returns, t_conclusion_returns.
  unfold renewal_is_significant, arr_is_significant.
  destruct (Rltb p alpha); split; reflexivity.
Qed.

Lemma conclusion_other (alpha p : R) :
  existsb is_warning (output (z_conclusion alpha p)) = false
  /\ existsb is_warning (output (t_conclusion alpha p)) = false
  /\ reports_arr_significant (output (z_conclusion alpha p)) = false
  /\ reports_renewal_significant (output (t_conclusion alpha p)) = false
  /\ verdict_renewal_significant (output (z_conclusion alpha p)) = false
  /\ verdict_renewal_significant (output (t_conclusion alpha p)) = false
  /\ verdict_arr_significant (output (z_conclusion alpha p)) = false
  /\ verdict_arr_significant (output (t_conclusion alpha p)) = false.
Proof.
  rewrite z_conclusion_returns, t_conclusion_returns.
  destruct (Rltb p alpha); repeat split; reflexivity.
Qed.

Section Runs.

Variable alpha : R.
Variable proportions_ztest : Z * Z -> Z * Z -> R * R.
Variable ttest_ind : list R -> list R -> R * R.

Lemma analysis_quiet (df : DataFrame) :
  In "A"%string (map Test_Group df) -> In "B"%string (map Test_Group df) ->
  existsb is_warning (output (analysis alpha proportions_ztest ttest_ind df))
  = false.
Proof.
  intros HA HB.
  destruct (analysis_returns alpha proportions_ztest ttest_ind df HA HB)
    as (pre & mid & -> & Hpre & Hmid).
  apply Forall_plain in Hpre, Hmid.
  destruct Hpre as (Hpre & _), Hmid as (Hmid & _).
  destruct (conclusion_other alpha (p_value_prop_of proportions_ztest df))
    as (Hz & _).
  destruct (conclusion_other alpha (p_value_arr_of ttest_ind df))
    as (_ & Ht & _).
  cbn [output fst]. rewrite !existsb_app, Hpre, Hmid, Hz, Ht.
  apply verdict_quiet.
Qed.

Lemma analysis_flags (df : DataFrame) :
  In "A"%string (map Test_Group df) -> In "B"%string (map Test_Group df) ->
  let out := output (analysis alpha proportions_ztest ttest_ind df) in
  reports_renewal_significant out = verdict_renewal_significant out
  /\ reports_arr_significant out = verdict_arr_significant out.
Proof.
  intros HA HB.
  destruct (analysis_returns alpha proportions_ztest ttest_ind df HA HB)
    as (pre & mid & -> & Hpre & Hmid).
  apply Forall_plain in Hpre, Hmid.
  destruct Hpre as (_ & Hp1 & Hp2 & Hp3 & Hp4).
  destruct Hmid as (_ & Hm1 & Hm2 & Hm3 & Hm4).
  destruct (conclusion_other alpha (p_value_prop_of proportions_ztest df))
    as (_ & _ & Hz2 & _ & Hz3 & _ & Hz4 & _).
  destruct (conclusion_other alpha (p_value_arr_of ttest_ind df))
    as (_ & _ & _ & Ht1 & _ & Ht3 & _ & Ht4).
  destruct (conclusion_flags alpha (p_value_prop_of proportions_ztest df))
    as (Hz1 & _).
  destruct (conclusion_flags alpha (p_value_arr_of ttest_ind df))
    as (_ & Ht2).
  match goal with
  | |- context [final_interpretation ?a ?b ?c ?d ?e ?f ?g] =>
      destruct (verdict_flags a b c d e f g) as (Hv3 & Hv4 & Hv1 & Hv2)
  end.
  cbv zeta in *. cbn [output fst] in *.
  unfold reports_renewal_significant, reports_arr_significant,
    verdict_renewal_significant, verdict_arr_significant in *.
  rewrite !existsb_app.
  rewrite Hp1, Hp2, Hp3, Hp4, Hm1, Hm2, Hm3, Hm4.
  rewrite Hz1, Hz2, Hz3, Hz4, Ht1, Ht2, Ht3, Ht4, Hv1, Hv2, Hv3, Hv4.
  cbn [orb]. rewrite !orb_false_r. split; reflexivity.
Qed.

End Runs.

Lemma In_existsb_warning (out : list line) :
  In WarningUnbalanced out <-> existsb is_warning out = true.
Proof.
  rewrite existsb_exists. split.
  - intros H. exists WarningUnbalanced. split; [exact H | reflexivity].
  - intros (l & Hl & Hw). destruct l; try discriminate. exact Hl.
Qed.

Lemma present_count_pos (g : string) (df : DataFrame) :
  In g (map Test_Group df) -> (0 < len df)%Z.
Proof. intros H. apply Z.ltb_lt, (present_nonempty g), H. Qed.

Lemma warning_iff alpha pz tind (df : DataFrame) :
  In "A"%string (map Test_Group df) -> In "B"%string (map Test_Group df) ->
  In WarningUnbalanced (output (run alpha pz tind (Some df)))
  <-> Rabs (IZR (len (select "A" df)) - IZR (len (select "B" df)))
      > 5 / 100 * IZR (len df).
Proof.
  intros HA HB.
  rewrite <- unbalanced_spec by (apply (present_count_pos "A"), HA).
  rewrite (run_returns _ _ _ df HA HB), In_existsb_warning.
  cbn [output fst existsb is_warning orb].
  rewrite existsb_app. cbn [existsb is_warning orb].
  rewrite (analysis_quiet _ _ _ df HA HB), orb_false_r.
  destruct (unbalanced _ _ _); cbn; split; congruence.
Qed.

(** ** Claims about the verdict *)

(** C2.  When both tests are significant and the group with the higher
    renewal rate is not the group with the higher average ARR, the
    recommendation printed is the "mixed results (conflicting winners)" one,
    which sends the decision to the stakeholders, and no line of it names or
    recommends a group. *)
Theorem conflicting_winners_verdict (alpha pp pa rA rB aA aB : R) :
  pp < alpha -> pa < alpha ->
  (rA > rB /\ aB > aA) \/ (rB > rA /\ aA > aB) ->
  final_interpretation alpha pp pa rA rB aA aB
  = (HeadingFinal :: mixed_lines rA rB aA aB, inr tt)
  /\ forall l : line,
       In l (output (final_interpretation alpha pp pa rA rB aA aB)) ->
       names_group l = None.
Proof.
  intros Hp Ha H.
  assert (E : final_interpretation alpha pp pa rA rB aA aB
              = (HeadingFinal :: mixed_lines rA rB aA aB, inr tt)).
  { rewrite final_interpretation_cases. compare_floats; try lra; reflexivity. }
  split; [exact E|].
  rewrite E. cbn. intros l Hl.
  repeat (destruct Hl as [<- | Hl]; [reflexivity|]). destruct Hl.
Qed.

Lemma conflicting_winners_verdict_witness :
  final_interpretation ALPHA (1/100) (2/100) (6/10) (5/10) 100 120
  = (HeadingFinal :: mixed_lines (6/10) (5/10) 100 120, inr tt)
  /\ forall l : line,
       In l (output (final_interpretation ALPHA (1/100) (2/100)
                       (6/10) (5/10) 100 120)) ->
       names_group l = None.
Proof.
  apply conflicting_winners_verdict; unfold ALPHA; [lra | lra | left; lra].
Defined.

(** ** Claims about the data quality checks *)

(** C6.  On a table that holds both groups the warning is printed exactly
    when the absolute difference of the two group counts exceeds 5% of the
    number of rows; the script then goes on with the whole analysis and
    finishes.  Counts of 52 and 48 out of 100 do not warn, 53 and 47 do. *)
Theorem balance_warning_advisory alpha pz tind (df : DataFrame) :
  In "A"%string (map Test_Group df) -> In "B"%string (map Test_Group df) ->
  (In WarningUnbalanced (output (run alpha pz tind (Some df)))
   <-> Rabs (IZR (len (select "A" df)) - IZR (len (select "B" df)))
       > 5 / 100 * IZR (len df))
  /\ ending (run alpha pz tind (Some df)) = Finished
  /\ (exists checks : list line,
         output (run alpha pz tind (Some df))
         = checks ++ ChecksComplete :: output (analysis alpha pz tind df))
  /\ unbalanced 52 48 100 = false
  /\ unbalanced 53 47 100 = true.
Proof.
  intros HA HB. split; [apply warning_iff; assumption|].
  rewrite (run_returns _ _ _ df HA HB). split; [reflexivity|]. split.
  - exists (Banner :: HeadingQuality :: GroupCounts (value_counts df)
             :: (if unbalanced (len (select "A" df)) (len (select "B" df))
                      (len df)
                 then [WarningUnbalanced] else [])).
    reflexivity.
  - split.
    + apply not_true_is_false. rewrite unbalanced_spec by lia.
      rewrite <- minus_IZR. simpl. rewrite Rabs_pos_eq by lra. lra.
    + rewrite unbalanced_spec by lia.
      rewrite <- minus_IZR. simpl. rewrite Rabs_pos_eq by lra. lra.
Qed.

Lemma balance_warning_advisory_witness :
  (In WarningUnbalanced (output (RenewalAnalysis (Some (two_groups 53 47))))
   <-> Rabs (IZR (len (select "A" (two_groups 53 47)))
             - IZR (len (select "B" (two_groups 53 47))))
       > 5 / 100 * IZR (len (two_groups 53 47)))
  /\ ending (RenewalAnalysis (Some (two_groups 53 47))) = Finished
  /\ (exists checks : list line,
         output (RenewalAnalysis (Some (two_groups 53 47)))
         = checks ++ ChecksComplete
             :: output (analysis ALPHA Stats.proportions_ztest Stats.ttest_ind
                          (two_groups 53 47)))
  /\ unbalanced 52 48 100 = false
  /\ unbalanced 53 47 100 = true.
Proof.
  apply (balance_warning_advisory ALPHA Stats.proportions_ztest Stats.ttest_ind
           (two_groups 53 47)).
  - simpl. left. reflexivity.
  - apply in_map_iff. exists (mkRow 0 "B" 0 90). split; [reflexivity|].
    apply in_or_app. right. simpl. left. reflexivity.
Defined.

(** The two datasets of scenario 4, run through the script. *)
Example balanced_52_48 :
  ~ In WarningUnbalanced (output (RenewalAnalysis (Some (two_groups 52 48)))).
Proof.
  unfold RenewalAnalysis. rewrite warning_iff.
  - replace (len (select "A" (two_groups 52 48))) with 52%Z by reflexivity.
    replace (len (select "B" (two_groups 52 48))) with 48%Z by reflexivity.
    replace (len (two_groups 52 48)) with 100%Z by reflexivity.
    rewrite <- minus_IZR. simpl. rewrite Rabs_pos_eq by lra. lra.
  - simpl. left. reflexivity.
  - apply in_map_iff. exists (mkRow 0 "B" 0 90). split; [reflexivity|].
    apply in_or_app. right. simpl. left. reflexivity.
Qed.

Example unbalanced_53_47 :
  In WarningUnbalanced (output (RenewalAnalysis (Some (two_groups 53 47)))).
Proof.
  unfold RenewalAnalysis. rewrite warning_iff.
  - replace (len (select "A" (two_groups 53 47))) with 53%Z by reflexivity.
    replace (len (select "B" (two_groups 53 47))) with 47%Z by reflexivity.
    replace (len (two_groups 53 47)) with 100%Z by reflexivity.
    rewrite <- minus_IZR. simpl. rewrite Rabs_pos_eq by lra. lra.
  - simpl. left. reflexivity.
  - apply in_map_iff. exists (mkRow 0 "B" 0 90). split; [reflexivity|].
    apply in_or_app. right. simpl. left. reflexivity.
Qed.

(** C7, as stated, fails: on a table with group "A" only, the run ends in an
    unhandled [KeyError], not in an error the script signals or handles. *)
Lemma only_group_A_crashes :
  RenewalAnalysis (Some [mkRow 1 "A" 1 100])
  = ([Banner; HeadingQuality; GroupCounts [("A"%string, 1%Z)]],
     inl (KeyError "B"))
  /\ ending (RenewalAnalysis (Some [mkRow 1 "A" 1 100]))
     = UnhandledCrash (KeyError "B").
Proof.
  unfold RenewalAnalysis. rewrite run_raises.
  - split; reflexivity.
  - right. simpl. intros [H | []]. discriminate.
Qed.

(** C7, amended.  On a table in which one of the two groups has no row, the
    script stops with an uncaught [KeyError] for the first missing label,
    before the table of group statistics is printed and before any test. *)
Theorem missing_group_raises_KeyError alpha pz tind (df : DataFrame) :
  ~ In "A"%string (map Test_Group df) \/ ~ In "B"%string (map Test_Group df) ->
  run alpha pz tind (Some df)
  = (Banner :: HeadingQuality :: GroupCounts (value_counts df)
       :: match df with
          | [] => [ChecksComplete; HeadingDescriptive]
          | _ :: _ => []
          end,
     inl (KeyError (if in_dec string_dec "A"%string (map Test_Group df)
                    then "B"%string else "A"%string)))
  /\ (exists key : string,
         ending (run alpha pz tind (Some df)) = UnhandledCrash (KeyError key))
  /\ forall t : indexed group_stats,
       ~ In (StatsTable t) (output (run alpha pz tind (Some df))).
Proof.
  intros H. pose proof (run_raises alpha pz tind df H) as E.
  split; [exact E|]. rewrite E. split.
  - eexists. reflexivity.
  - intros t. cbn [output fst]. destruct df; cbn; intros Hin;
      repeat (destruct Hin as [Hin | Hin]; [discriminate|]); exact Hin.
Qed.

Lemma missing_group_raises_KeyError_witness :
  RenewalAnalysis (Some [mkRow 1 "A" 1 100])
  = (Banner :: HeadingQuality
       :: GroupCounts (value_counts [mkRow 1 "A" 1 100]) :: [],
     inl (KeyError (if in_dec string_dec "A"%string
                         (map Test_Group [mkRow 1 "A" 1 100])
                    then "B"%string else "A"%string)))
  /\ (exists key : string,
         ending (RenewalAnalysis (Some [mkRow 1 "A" 1 100]))
         = UnhandledCrash (KeyError key))
  /\ forall t : indexed group_stats,
       ~ In (StatsTable t) (output (RenewalAnalysis (Some [mkRow 1 "A" 1 100]))).
Proof.
  apply (missing_group_raises_KeyError ALPHA Stats.proportions_ztest
           Stats.ttest_ind [mkRow 1 "A" 1 100]).
  right. simpl. intros [H | []]. discriminate.
Defined.

(** ** The conclusions of the tests and the verdict *)

(** C10.  The conclusion printed by each test step and the significance the
    final recommendation assumes for that test are the same: at equal
    p-values and level, and in the output of every run of the script. *)
Theorem conclusions_agree_with_verdict alpha pz tind :
  (forall pp pa rA rB aA aB : R,
      reports_renewal_significant (output (z_conclusion alpha pp))
      = verdict_renewal_significant
          (output (final_interpretation alpha pp pa rA rB aA aB))
      /\ reports_arr_significant (output (t_conclusion alpha pa))
         = verdict_arr_significant
             (output (final_interpretation alpha pp pa rA rB aA aB)))
  /\ (forall file : option DataFrame,
         reports_renewal_significant (output (run alpha pz tind file))
         = verdict_renewal_significant (output (run alpha pz tind file))
         /\ reports_arr_significant (output (run alpha pz tind file))
            = verdict_arr_significant (output (run alpha pz tind file))).
Proof.
  split.
  - intros pp pa rA rB aA aB.
    destruct (verdict_flags alpha pp pa rA rB aA aB) as (-> & -> & _).
    destruct (conclusion_flags alpha pp) as (-> & _).
    destruct (conclusion_flags alpha pa) as (_ & ->). split; reflexivity.
  - intros [df |]; [|split; reflexivity].
    destruct (in_dec string_dec "A"%string (map Test_Group df)) as [HA | HA];
      [destruct (in_dec string_dec "B"%string (map Test_Group df))
        as [HB | HB] |].
    + rewrite (run_returns _ _ _ df HA HB).
      destruct (analysis_flags alpha pz tind df HA HB) as (E1 & E2).
      cbn [output fst] in *.
      unfold reports_renewal_significant, reports_arr_significant,
        verdict_renewal_significant, verdict_arr_significant in *.
      cbn [existsb orb]. rewrite !existsb_app. cbn [existsb orb].
      rewrite E1, E2.
      destruct (unbalanced _ _ _); split; reflexivity.
    + rewrite (run_raises _ _ _ df (or_intror HB)).
      destruct df; split; reflexivity.
    + rewrite (run_raises _ _ _ df (or_introl HA)).
      destruct df; split; reflexivity.
Qed.

(** * The two tests *)

Import Stats.

(** ** The z-test: algebra *)

Lemma pooled_proportion_swap (kA kB nA nB : Z) :
  pooled_proportion (kB, kA) (nB, nA) = pooled_proportion (kA, kB) (nA, nB).
Proof.
  unfold pooled_proportion; cbn [fst snd].
  rewrite (Z.add_comm kB kA), (Z.add_comm nB nA). reflexivity.
Qed.

Lemma pooled_se_swap (kA kB nA nB : Z) :
  pooled_se (kB, kA) (nB, nA) = pooled_se (kA, kB) (nA, nB).
Proof.
  unfold pooled_se. rewrite pooled_proportion_swap. cbn [fst snd].
  f_equal. ring.
Qed.

(** ** Welch's test: the degrees of freedom *)

Lemma sumR_squares_nonneg (c : R) (l : list R) :
  0 <= sumR (map (fun x => (x - c) * (x - c)) l).
Proof.
  unfold sumR. induction l as [| x l IH]; simpl; [lra | ].
  pose proof (Rle_0_sqr (x - c)) as Hs. unfold Rsqr in Hs. lra.
Qed.

Lemma var_nonneg (l : list R) : (2 <= len l)%Z -> 0 <= var l.
Proof.
  intros H. apply IZR_le in H. unfold var, sum_sq_dev.
  apply Rmult_le_pos; [apply sumR_squares_nonneg|].
  apply Rlt_le, Rinv_0_lt_compat. lra.
Qed.

Lemma satterthwaite_scaled (x y p q : R) :
  0 <= x -> 0 <= y -> 0 < p * x + q * y -> 1 <= p -> 1 <= q ->
  Rmin p q <= (p * x + q * y) ^ 2 / (p * x ^ 2 + q * y ^ 2) <= p + q.
Proof.
  intros Hx Hy Hxy Hp Hq.
  assert (HD : 0 < p * x ^ 2 + q * y ^ 2).
  { destruct (Rle_lt_or_eq_dec 0 x Hx) as [Hx' | Hx'].
    - assert (0 < x ^ 2) by nra. nra.
    - destruct (Rle_lt_or_eq_dec 0 y Hy) as [Hy' | Hy'].
      + assert (0 < y ^ 2) by nra. nra.
      + rewrite <- Hx', <- Hy' in Hxy. lra. }
  assert (E : forall m : R,
             m * (p * x ^ 2 + q * y ^ 2) <= (p * x + q * y) ^ 2 ->
             m <= (p * x + q * y) ^ 2 / (p * x ^ 2 + q * y ^ 2)).
  { intros m Hm. apply Rmult_le_reg_r with (p * x ^ 2 + q * y ^ 2);
      [exact HD|].
    replace ((p * x + q * y) ^ 2 / (p * x ^ 2 + q * y ^ 2)
             * (p * x ^ 2 + q * y ^ 2))
      with ((p * x + q * y) ^ 2) by (field; lra).
    exact Hm. }
  assert (Hxx : 0 <= x ^ 2) by nra.
  assert (Hyy : 0 <= y ^ 2) by nra.
  assert (Hm : 0 <= x * y) by nra.
  assert (Hpq : 0 <= p * q * (x * y))
    by (apply Rmult_le_pos; [apply Rmult_le_pos; lra | exact Hm]).
  split.
  - apply E. unfold Rmin. destruct (Rle_dec p q) as [Hle | Hnle].
    + assert (0 <= (q - p) * q * y ^ 2) by
        (apply Rmult_le_pos; [apply Rmult_le_pos; lra | exact Hyy]).
      replace ((p * x + q * y) ^ 2)
        with (p * (p * x ^ 2 + q * y ^ 2)
              + (2 * (p * q * (x * y)) + (q - p) * q * y ^ 2)) by ring.
      lra.
    + assert (0 <= (p - q) * p * x ^ 2) by
        (apply Rmult_le_pos; [apply Rmult_le_pos; lra | exact Hxx]).
      replace ((p * x + q * y) ^ 2)
        with (q * (p * x ^ 2 + q * y ^ 2)
              + (2 * (p * q * (x * y)) + (p - q) * p * x ^ 2)) by ring.
      lra.
  - apply Rmult_le_reg_r with (p * x ^ 2 + q * y ^ 2); [exact HD|].
    replace ((p * x + q * y) ^ 2 / (p * x ^ 2 + q * y ^ 2)
             * (p * x ^ 2 + q * y ^ 2))
      with ((p * x + q * y) ^ 2) by (field; lra).
    assert (0 <= p * q * (x - y) ^ 2) by
      (apply Rmult_le_pos; [apply Rmult_le_pos; lra | apply pow2_ge_0]).
    replace ((p + q) * (p * x ^ 2 + q * y ^ 2))
      with ((p * x + q * y) ^ 2 + p * q * (x - y) ^ 2) by ring.
    lra.
Qed.

Lemma satterthwaite_bounds (va vb p q : R) :
  0 <= va -> 0 <= vb -> 0 < va + vb -> 1 <= p -> 1 <= q ->
  Rmin p q <= (va + vb) ^ 2 / (va ^ 2 / p + vb ^ 2 / q) <= p + q.
Proof.
  intros Ha Hb Hab Hp Hq.
  assert (Ex : va = p * (va / p)) by (field; lra).
  assert (Ey : vb = q * (vb / q)) by (field; lra).
  assert (Hx : 0 <= va / p)
    by (apply Rmult_le_pos; [lra | apply Rlt_le, Rinv_0_lt_compat; lra]).
  assert (Hy : 0 <= vb / q)
    by (apply Rmult_le_pos; [lra | apply Rlt_le, Rinv_0_lt_compat; lra]).
  replace (va ^ 2 / p + vb ^ 2 / q)
    with (p * (va / p) ^ 2 + q * (vb / q) ^ 2) by (field; lra).
  rewrite Ex at 1 3. rewrite Ey at 1 3.
  apply satterthwaite_scaled; try assumption.
  rewrite <- Ex, <- Ey. exact Hab.
Qed.

Lemma welch_se_pow4 (a b : list R) :
  0 <= var a / IZR (len a) + var b / IZR (len b) ->
  welch_se a b ^ 4 = (var a / IZR (len a) + var b / IZR (len b)) ^ 2.
Proof.
  intros H. unfold welch_se.
  replace (sqrt (var a / IZR (len a) + var b / IZR (len b)) ^ 4)
    with ((sqrt (var a / IZR (len a) + var b / IZR (len b))
           * sqrt (var a / IZR (len a) + var b / IZR (len b))) ^ 2) by ring.
  rewrite sqrt_sqrt by exact H. reflexivity.
Qed.

(** ** Scenario 2: the statistics *)

Lemma scenario2_mean_A : mean scenario2_A = 100.
Proof. unfold mean, scenario2_A, sumR, len; simpl. lra. Qed.

Lemma scenario2_mean_B : mean scenario2_B = 110.
Proof. unfold mean, scenario2_B, sumR, len; simpl. lra. Qed.

Lemma scenario2_var_A : var scenario2_A = 5 / 2.
Proof.
  unfold var, sum_sq_dev. rewrite scenario2_mean_A.
  unfold scenario2_A, sumR, len; simpl. lra.
Qed.

Lemma scenario2_var_B : var scenario2_B = 5 / 2.
Proof.
  unfold var, sum_sq_dev. rewrite scenario2_mean_B.
  unfold scenario2_B, sumR, len; simpl. lra.
Qed.

Lemma scenario2_se : welch_se scenario2_A scenario2_B = 1.
Proof.
  unfold welch_se. rewrite scenario2_var_A, scenario2_var_B.
  replace (5 / 2 / IZR (len scenario2_A) + 5 / 2 / IZR (len scenario2_B))
    with 1 by (unfold len; simpl; lra).
  apply sqrt_1.
Qed.

Lemma scenario2_t : welch_t scenario2_A scenario2_B = -10.
Proof.
  unfold welch_t. rewrite scenario2_se, scenario2_mean_A, scenario2_mean_B.
  lra.
Qed.

Lemma scenario2_df : welch_df scenario2_A scenario2_B = 8.
Proof.
  unfold welch_df. rewrite scenario2_se, scenario2_var_A, scenario2_var_B.
  unfold len; simpl. lra.
Qed.

(** ** The normal law: numerical bounds *)

Lemma exp_proj (x : R) : exp_in x (exp x).
Proof. unfold exp. destruct (exist_exp x) as [l Hl]. exact Hl. Qed.

Lemma pow_fact_decreasing (u : R) :
  0 <= u <= 1 -> Un_decreasing (fun n => u ^ n / INR (fact n)).
Proof.
  intros [H0 H1] n.
  assert (Hf : 0 < INR (fact n)) by (apply lt_0_INR, lt_O_fact).
  assert (Hp : 0 <= u ^ n) by (apply pow_le, H0).
  assert (Hq : 0 <= u ^ n / INR (fact n)).
  { apply Rmult_le_pos; [exact Hp | apply Rlt_le, Rinv_0_lt_compat, Hf]. }
  assert (Hn : 1 <= INR (S n)).
  { replace 1 with (INR 1) by reflexivity. apply le_INR. lia. }
  replace (u ^ S n / INR (fact (S n)))
    with (u / INR (S n) * (u ^ n / INR (fact n))).
  - assert (Hu : u / INR (S n) <= 1).
    { apply Rmult_le_reg_r with (INR (S n)); [lra|].
      replace (u / INR (S n) * INR (S n)) with u by (field; lra). lra. }
    assert (0 <= u / INR (S n)).
    { apply Rmult_le_pos; [exact H0 | apply Rlt_le, Rinv_0_lt_compat; lra]. }
    nra.
  - rewrite fact_simpl, mult_INR. simpl pow. field. split; lra.
Qed.

Lemma exp_neg_series (u : R) :
  Un_cv (fun N => sum_f_R0 (tg_alt (fun n => u ^ n / INR (fact n))) N)
        (exp (- u)).
Proof.
  intros eps Heps. destruct (exp_proj (- u) eps Heps) as [N HN].
  exists N. intros n Hn. specialize (HN n Hn).
  replace (sum_f_R0 (tg_alt (fun n0 => u ^ n0 / INR (fact n0))) n)
    with (sum_f_R0 (fun i => / INR (fact i) * (- u) ^ i) n); [exact HN|].
  apply sum_eq. intros i _. unfold tg_alt.
  replace (- u) with (-1 * u) by ring. rewrite Rpow_mult_distr.
  unfold Rdiv. ring.
Qed.

Lemma exp_neg_bounds (u : R) :
  0 <= u <= 1 ->
  1 - u + u ^ 2 / 2 - u ^ 3 / 6 + u ^ 4 / 24 - u ^ 5 / 120
  <= exp (- u)
  <= 1 - u + u ^ 2 / 2 - u ^ 3 / 6 + u ^ 4 / 24.
Proof.
  intros Hu.
  pose proof (alternated_series_ineq _ _ 2 (pow_fact_decreasing u Hu)
                (cv_speed_pow_fact u) (exp_neg_series u)) as H.
  unfold tg_alt in H. simpl in H. lra.
Qed.
Lemma PI_bounds : 31415 / 10000 < PI < 31421 / 10000.
Proof.
  pose proof (PI_2_3_7_ineq 1) as H.
  unfold tg_alt, PI_2_3_7_tg, Ratan_seq in H. simpl in H. lra.
Qed.

Lemma sqrt_2PI_bounds : 2506 / 1000 < sqrt (2 * PI) < 2507 / 1000.
Proof.
  destruct PI_bounds as [Hl Hu]. split.
  - rewrite <- (sqrt_square (2506 / 1000)) by lra.
    apply sqrt_lt_1; lra.
  - rewrite <- (sqrt_square (2507 / 1000)) by lra.
    apply sqrt_lt_1; lra.
Qed.

(** A function below the derivative of [F] has its integral below the
  increase of [F]. *)
Section Primitive.
Variables F F' : R -> R.
Hypothesis F_derivative : forall x : R, derivable_pt_lim F x (F' x).
Hypothesis F'_continuous : continuity F'.

Definition primitive_C1 : C1_fun :=
  mkC1 (c1 := F) (diff0 := fun x => exist _ (F' x) (F_derivative x))
       F'_continuous.

Lemma integral_derivative (a b : R)
      (pr : Riemann_integrable F' a b) :
  RiemannInt pr = F b - F a.
Proof. exact (@FTC_Riemann primitive_C1 a b pr). Qed.

Lemma integral_le_primitive (f : R -> R) (a b : R)
      (pr : Riemann_integrable f a b) :
  a <= b -> (forall x, a < x < b -> f x <= F' x) ->
  RiemannInt pr <= F b - F a.
Proof.
  intros Hab H.
  rewrite <- (integral_derivative a b (RiemannInt_P32 primitive_C1 a b)).
  apply RiemannInt_P19; assumption.
Qed.

Lemma integral_ge_primitive (f : R -> R) (a b : R)
      (pr : Riemann_integrable f a b) :
  a <= b -> (forall x, a < x < b -> F' x <= f x) ->
  F b - F a <= RiemannInt pr.
Proof.
  intros Hab H.
  rewrite <- (integral_derivative a b (RiemannInt_P32 primitive_C1 a b)).
  apply RiemannInt_P19; assumption.
Qed.
End Primitive.

Lemma derivable_pt_lim_monomial (n : nat) (c x : R) :
  derivable_pt_lim (fun t => t ^ n / c) x (INR n * x ^ pred n / c).
Proof.
  apply (derivable_pt_lim_scal_right (fun t => t ^ n)), derivable_pt_lim_pow.
Qed.

Lemma area_upper_derivative (x : R) :
  derivable_pt_lim area_upper x (gauss_upper x).
Proof.
  unfold gauss_upper.
  replace (1 - x ^ 2 / 2 + x ^ 4 / 8 - x ^ 6 / 48 + x ^ 8 / 384)
    with (1 - INR 3 * x ^ pred 3 / 6 + INR 5 * x ^ pred 5 / 40
          - INR 7 * x ^ pred 7 / 336 + INR 9 * x ^ pred 9 / 3456)
    by (simpl; field).
  unfold area_upper.
  apply (derivable_pt_lim_plus
           (fun t => t - t ^ 3 / 6 + t ^ 5 / 40 - t ^ 7 / 336)
           (fun t => t ^ 9 / 3456));
    [|apply derivable_pt_lim_monomial].
  apply (derivable_pt_lim_minus
           (fun t => t - t ^ 3 / 6 + t ^ 5 / 40) (fun t => t ^ 7 / 336));
    [|apply derivable_pt_lim_monomial].
  apply (derivable_pt_lim_plus
           (fun t => t - t ^ 3 / 6) (fun t => t ^ 5 / 40));
    [|apply derivable_pt_lim_monomial].
  apply (derivable_pt_lim_minus id (fun t => t ^ 3 / 6));
    [apply derivable_pt_lim_id | apply derivable_pt_lim_monomial].
Qed.

Lemma area_lower_derivative (x : R) :
  derivable_pt_lim area_lower x (gauss_lower x).
Proof.
  unfold gauss_lower.
  replace (x ^ 10 / 3840) with (INR 11 * x ^ pred 11 / 42240)
    by (simpl; field).
  apply (derivable_pt_lim_minus area_upper (fun t => t ^ 11 / 42240));
    [apply area_upper_derivative | apply derivable_pt_lim_monomial].
Qed.

Lemma gauss_upper_continuous : continuity gauss_upper.
Proof. unfold gauss_upper. reg. Qed.

Lemma gauss_lower_continuous : continuity gauss_lower.
Proof. unfold gauss_lower, gauss_upper. reg. Qed.

Lemma gauss_between (t : R) :
  t * t <= 2 -> gauss_lower t <= gauss t <= gauss_upper t.
Proof.
  intros Ht.
  assert (Hu : 0 <= t * t / 2 <= 1) by nra.
  pose proof (exp_neg_bounds (t * t / 2) Hu) as H.
  unfold gauss, gauss_lower, gauss_upper.
  replace (1 - t ^ 2 / 2 + t ^ 4 / 8 - t ^ 6 / 48 + t ^ 8 / 384)
    with (1 - t * t / 2 + (t * t / 2) ^ 2 / 2 - (t * t / 2) ^ 3 / 6
          + (t * t / 2) ^ 4 / 24) by field.
  replace (t ^ 10 / 3840) with ((t * t / 2) ^ 5 / 120) by field.
  exact H.
Qed.

Lemma gauss_area_bounds (x : R) :
  0 <= x -> x * x <= 2 ->
  area_lower x <= RiemannInt (gauss_integrable 0 x) <= area_upper x.
Proof.
  intros H0 H2.
  assert (Ht : forall t, 0 < t < x -> t * t <= 2) by (intros t Ht; nra).
  split.
  - replace (area_lower x) with (area_lower x - area_lower 0)
      by (unfold area_lower, area_upper; simpl; lra).
    apply (integral_ge_primitive area_lower gauss_lower
             area_lower_derivative gauss_lower_continuous); [exact H0|].
    intros t Hx. apply gauss_between, Ht, Hx.
  - replace (area_upper x) with (area_upper x - area_upper 0)
      by (unfold area_upper; simpl; lra).
    apply (integral_le_primitive area_upper gauss_upper
             area_upper_derivative gauss_upper_continuous); [exact H0|].
    intros t Hx. apply gauss_between, Ht, Hx.
Qed.

(** ** Scenario 1 *)

Lemma scenario1_pooled : pooled_proportion (8, 5)%Z (10, 10)%Z = 65 / 100.
Proof. unfold pooled_proportion; simpl. lra. Qed.

Lemma scenario1_se_sqrt : pooled_se (8, 5)%Z (10, 10)%Z = sqrt (455 / 10000).
Proof.
  unfold pooled_se. rewrite scenario1_pooled. cbn [fst snd]. f_equal. lra.
Qed.

Lemma scenario1_se :
  21330 / 100000 < pooled_se (8, 5)%Z (10, 10)%Z < 21331 / 100000.
Proof.
  rewrite scenario1_se_sqrt. split.
  - rewrite <- (sqrt_square (21330 / 100000)) by lra. apply sqrt_lt_1; lra.
  - rewrite <- (sqrt_square (21331 / 100000)) by lra. apply sqrt_lt_1; lra.
Qed.

Lemma scenario1_z :
  14064 / 10000 < z_statistic (8, 5)%Z (10, 10)%Z < 14065 / 10000.
Proof.
  pose proof scenario1_se as [Hl Hu].
  unfold z_statistic. cbn [fst snd].
  set (se := pooled_se (8, 5)%Z (10, 10)%Z) in *.
  replace (8 / 10 - 5 / 10) with (3 / 10) by lra.
  split.
  - apply Rmult_lt_reg_r with se; [lra|].
    replace (3 / 10 / se * se) with (3 / 10) by (field; lra). lra.
  - apply Rmult_lt_reg_r with se; [lra|].
    replace (3 / 10 / se * se) with (3 / 10) by (field; lra). lra.
Qed.

Lemma area_at_z (x : R) :
  14064 / 10000 < x < 14065 / 10000 ->
  10530 / 10000 < area_lower x /\ area_upper x < 10544 / 10000.
Proof.
  intros [Hl Hu].
  assert (P : forall n, (14064 / 10000) ^ n <= x ^ n <= (14065 / 10000) ^ n).
  { intros n. split; apply pow_incr; lra. }
  pose proof (P 3%nat) as P3. pose proof (P 5%nat) as P5.
  pose proof (P 7%nat) as P7. pose proof (P 9%nat) as P9.
  pose proof (P 11%nat) as P11.
  unfold area_lower, area_upper. simpl in *. lra.
Qed.

Lemma scenario1_p :
  158 / 1000 < two_sided_normal (z_statistic (8, 5)%Z (10, 10)%Z) < 160 / 1000.
Proof.
  pose proof scenario1_z as Hz.
  set (z := z_statistic (8, 5)%Z (10, 10)%Z) in *.
  destruct (area_at_z z Hz) as [HL HU].
  assert (H0 : 0 <= z) by lra.
  assert (H2 : z * z <= 2) by nra.
  destruct (gauss_area_bounds z H0 H2) as [Hlo Hhi].
  destruct sqrt_2PI_bounds as [Sl Su].
  unfold two_sided_normal, norm_sf, norm_cdf.
  rewrite (Rabs_pos_eq z H0).
  set (I := RiemannInt (gauss_integrable 0 z)) in *.
  set (s := sqrt (2 * PI)) in *.
  assert (Hq : 10530 / 10000 / (2507 / 1000) < I / s < 10544 / 10000 / (2506 / 1000)).
  { split.
    - apply Rmult_lt_reg_r with s; [lra|].
      replace (I / s * s) with I by (field; lra).
      apply Rle_lt_trans with (10530 / 10000 / (2507 / 1000) * (2507 / 1000)).
      + apply Rmult_le_compat_l; lra.
      + lra.
    - apply Rmult_lt_reg_r with s; [lra|].
      replace (I / s * s) with I by (field; lra).
      apply Rlt_le_trans with (10544 / 10000 / (2506 / 1000) * (2506 / 1000)).
      + lra.
      + apply Rmult_le_compat_l; lra. }
  lra.
Qed.

(** ** Student's law with 8 degrees of freedom *)

Lemma sqrt8_pos : 0 < sqrt 8.
Proof. apply sqrt_lt_R0; lra. Qed.

Lemma w_pos (u : R) : 0 < sqrt (8 + u * u).
Proof. apply sqrt_lt_R0; nra. Qed.

Lemma w_sqr (u : R) : sqrt (8 + u * u) * sqrt (8 + u * u) = 8 + u * u.
Proof. apply sqrt_sqrt; nra. Qed.

Lemma student_kernel_8 (u : R) :
  student_kernel 8 u
  = / ((1 + u * u / 8) ^ 4 * sqrt (1 + u * u / 8)).
Proof.
  assert (Hx : 0 < 1 + u * u / 8) by nra.
  unfold student_kernel. rewrite Rpower_Ropp. f_equal.
  replace ((8 + 1) / 2) with (INR 4 + / 2) by (simpl; lra).
  rewrite Rpower_plus, Rpower_pow, Rpower_sqrt by exact Hx. reflexivity.
Qed.

Lemma student_kernel_8_w (u : R) :
  student8_const * student_kernel 8 u = 4480 / sqrt (8 + u * u) ^ 9.
Proof.
  rewrite student_kernel_8.
  pose proof sqrt8_pos as Hr. pose proof (w_pos u) as Hw.
  assert (Er : sqrt 8 * sqrt 8 = 8) by (apply sqrt_sqrt; lra).
  pose proof (w_sqr u) as Ew.
  assert (Es : sqrt (1 + u * u / 8) = sqrt (8 + u * u) / sqrt 8).
  { rewrite <- sqrt_div_alt by lra. f_equal. field. }
  rewrite Es.
  replace (1 + u * u / 8) with (sqrt (8 + u * u) * sqrt (8 + u * u) / 8)
    by (rewrite Ew; field).
  unfold student8_const. set (w := sqrt (8 + u * u)) in *. set (r := sqrt 8) in *.
  replace 8 with (r * r) at 2 by exact Er.
  field. repeat split; lra.
Qed.

Lemma student8_ratio_derivative (u : R) :
  derivable_pt_lim student8_ratio u (8 / sqrt (8 + u * u) ^ 3).
Proof.
  pose proof (w_pos u) as Hw. pose proof (w_sqr u) as Ew.
  assert (Dq : derivable_pt_lim (fun x => 8 + x * x) u (0 + (1 * u + u * 1))).
  { apply (derivable_pt_lim_plus (fun _ => 8) (fun x => x * x)).
    - apply derivable_pt_lim_const.
    - apply (derivable_pt_lim_mult id id); apply derivable_pt_lim_id. }
  assert (Dw : derivable_pt_lim (fun x => sqrt (8 + x * x)) u
                 (/ (2 * sqrt (8 + u * u)) * (0 + (1 * u + u * 1)))).
  { apply (derivable_pt_lim_comp (fun x => 8 + x * x) sqrt).
    - exact Dq.
    - apply derivable_pt_lim_sqrt. nra. }
  assert (Ds : derivable_pt_lim student8_ratio u
                 ((1 * sqrt (8 + u * u)
                   - / (2 * sqrt (8 + u * u)) * (0 + (1 * u + u * 1)) * u)
                  / (sqrt (8 + u * u))²)).
  { apply (derivable_pt_lim_div id (fun x => sqrt (8 + x * x))).
    - apply derivable_pt_lim_id.
    - exact Dw.
    - lra. }
  replace (8 / sqrt (8 + u * u) ^ 3)
    with ((1 * sqrt (8 + u * u)
           - / (2 * sqrt (8 + u * u)) * (0 + (1 * u + u * 1)) * u)
          / (sqrt (8 + u * u))²); [exact Ds|].
  unfold Rsqr. set (w := sqrt (8 + u * u)) in *.
  replace (u * 1) with u by ring. replace (1 * u) with u by ring.
  replace (/ (2 * w) * (0 + (u + u)) * u) with ((w * w - 8) / w).
  - field. lra.
  - rewrite Ew. field. lra.
Qed.

Lemma student8_poly_derivative (s : R) :
  derivable_pt_lim student8_poly s ((1 - s * s) ^ 3).
Proof.
  replace ((1 - s * s) ^ 3)
    with (1 - INR 3 * s ^ pred 3 + 3 / 5 * (INR 5 * s ^ pred 5)
          - INR 7 * s ^ pred 7 / 7) by (simpl; field).
  unfold student8_poly.
  apply (derivable_pt_lim_minus
           (fun t => t - t ^ 3 + 3 / 5 * t ^ 5) (fun t => t ^ 7 / 7)).
  - apply (derivable_pt_lim_plus (fun t => t - t ^ 3)
             (fun t => 3 / 5 * t ^ 5)).
    + apply (derivable_pt_lim_minus id (fun t => t ^ 3));
        [apply derivable_pt_lim_id | apply derivable_pt_lim_pow].
    + apply (derivable_pt_lim_scal (fun t => t ^ 5)), derivable_pt_lim_pow.
  - apply (derivable_pt_lim_scal_right (fun t => t ^ 7)),
      derivable_pt_lim_pow.
Qed.

Lemma student8_cdf_derivative (u : R) :
  derivable_pt_lim student8_cdf u (student8_const * student_kernel 8 u).
Proof.
  pose proof (w_pos u) as Hw. pose proof (w_sqr u) as Ew.
  rewrite student_kernel_8_w.
  replace (4480 / sqrt (8 + u * u) ^ 9)
    with (0 + 35 / 32 * ((1 - student8_ratio u * student8_ratio u) ^ 3 * (8 / sqrt (8 + u * u) ^ 3))).
  - apply (derivable_pt_lim_plus (fun _ => 1 / 2)
             (fun x => 35 / 32 * student8_poly (student8_ratio x))).
    + apply derivable_pt_lim_const.
    + apply (derivable_pt_lim_scal (fun x => student8_poly (student8_ratio x))).
      apply (derivable_pt_lim_comp student8_ratio student8_poly);
        [apply student8_ratio_derivative | apply student8_poly_derivative].
  - unfold student8_ratio. set (w := sqrt (8 + u * u)) in *.
    assert (Eu : u * u = w * w - 8) by lra.
    replace (1 - u / w * (u / w)) with (8 / (w * w)).
    + field. lra.
    + replace (u / w * (u / w)) with (u * u / (w * w)) by (field; lra).
      rewrite Eu. field. lra.
Qed.

Lemma student8_ratio_near_1 (u : R) : 1 <= u -> 0 <= 1 - student8_ratio u <= 8 / u.
Proof.
  intros Hu. pose proof (w_pos u) as Hw. pose proof (w_sqr u) as Ew.
  unfold student8_ratio. set (w := sqrt (8 + u * u)) in *.
  assert (Hwu : u <= w) by nra.
  assert (E : 1 - u / w = (w - u) / w) by (field; lra).
  rewrite E. split.
  - apply Rmult_le_pos; [lra | apply Rlt_le, Rinv_0_lt_compat, Hw].
  - apply Rmult_le_reg_r with (w * u); [nra|].
    replace ((w - u) / w * (w * u)) with ((w - u) * u) by (field; lra).
    replace (8 / u * (w * u)) with (8 * w) by (field; lra).
    nra.
Qed.

Lemma student8_poly_near_1 (t : R) :
  0 <= t <= 1 -> Rabs (student8_poly (1 - t) - 16 / 35) <= 3 * t.
Proof.
  intros [H0 H1].
  replace (student8_poly (1 - t) - 16 / 35)
    with (- (t * (t ^ 3 * (2 - 12 / 5 * t + t ^ 2 - t ^ 3 / 7))))
    by (unfold student8_poly; field).
  rewrite Rabs_Ropp, Rabs_mult, (Rabs_pos_eq t H0).
  rewrite Rmult_comm. apply Rmult_le_compat_r; [exact H0|].
  assert (T2 : 0 <= t ^ 2 <= 1) by nra.
  assert (T3 : 0 <= t ^ 3 <= 1) by nra.
  apply Rabs_le. nra.
Qed.

Lemma student8_cdf_opp (u : R) : student8_cdf (- u) = 1 - student8_cdf u.
Proof.
  unfold student8_cdf, student8_ratio. replace (- u * - u) with (u * u) by ring.
  replace (- u / sqrt (8 + u * u)) with (- (u / sqrt (8 + u * u)))
    by (unfold Rdiv; ring).
  set (x := u / sqrt (8 + u * u)). unfold student8_poly. field.
Qed.

Lemma student8_cdf_near_1 (u : R) : 1 <= u -> Rabs (student8_cdf u - 1) <= 32 / u.
Proof.
  intros Hu. destruct (student8_ratio_near_1 u Hu) as [Hs0 Hs1].
  assert (Hu8 : 8 / u <= 8).
  { apply Rmult_le_reg_r with u; [lra|].
    replace (8 / u * u) with 8 by (field; lra). lra. }
  assert (Ht : 0 <= 1 - student8_ratio u <= 1).
  { split; [lra|]. pose proof (w_pos u). unfold student8_ratio.
    assert (0 <= u / sqrt (8 + u * u)).
    { apply Rmult_le_pos; [lra | apply Rlt_le, Rinv_0_lt_compat; lra]. }
    lra. }
  pose proof (student8_poly_near_1 (1 - student8_ratio u) Ht) as HF.
  replace (1 - (1 - student8_ratio u)) with (student8_ratio u) in HF by ring.
  unfold student8_cdf.
  replace (1 / 2 + 35 / 32 * student8_poly (student8_ratio u) - 1)
    with (35 / 32 * (student8_poly (student8_ratio u) - 16 / 35)) by field.
  rewrite Rabs_mult, (Rabs_pos_eq (35 / 32)) by lra.
  replace (32 / u) with (4 * (8 / u)) by (field; lra).
  nra.
Qed.

Lemma student8_cdf_limit_plus : tends_to_at_plus_infinity student8_cdf 1.
Proof.
  intros eps Heps. exists (Rmax 1 (32 / eps)). intros u Hu.
  assert (H1 : 1 < u) by (eapply Rle_lt_trans; [apply Rmax_l | exact Hu]).
  assert (H2 : 32 / eps < u)
    by (eapply Rle_lt_trans; [apply Rmax_r | exact Hu]).
  apply Rle_lt_trans with (32 / u); [apply student8_cdf_near_1; lra|].
  apply Rmult_lt_reg_r with u; [lra|].
  replace (32 / u * u) with 32 by (field; lra).
  apply Rmult_lt_compat_r with (r := eps) in H2; [|exact Heps].
  replace (32 / eps * eps) with 32 in H2 by (field; lra). lra.
Qed.

Lemma student8_cdf_limit_minus : tends_to_at_minus_infinity student8_cdf 0.
Proof.
  intros eps Heps. destruct (student8_cdf_limit_plus eps Heps) as [M HM].
  exists (- M). intros u Hu.
  assert (H : M < - u) by lra. specialize (HM (- u) H).
  rewrite student8_cdf_opp in HM.
  replace (student8_cdf u - 0) with (- (1 - student8_cdf u - 1)) by ring.
  rewrite Rabs_Ropp. exact HM.
Qed.

Lemma student8_cdf_is_student_cdf : is_student_cdf 8 student8_cdf.
Proof.
  split; [|split].
  - exists student8_const. apply student8_cdf_derivative.
  - apply student8_cdf_limit_minus.
  - apply student8_cdf_limit_plus.
Qed.

(** Limits at infinity. *)

Lemma tends_minus_reflect (f : R -> R) (l : R) :
  tends_to_at_minus_infinity f l ->
  tends_to_at_plus_infinity (fun u => f (- u)) l.
Proof.
  intros H eps Heps. destruct (H eps Heps) as [M HM].
  exists (- M). intros u Hu. apply HM. lra.
Qed.

Lemma tends_plus_combination (f g : R -> R) (r l m : R) :
  tends_to_at_plus_infinity f l -> tends_to_at_plus_infinity g m ->
  tends_to_at_plus_infinity (fun u => f u - r * g u) (l - r * m).
Proof.
  intros Hf Hg eps Heps.
  assert (Hr : 0 < Rabs r + 1) by (pose proof (Rabs_pos r); lra).
  assert (He : 0 < eps / 2 / (Rabs r + 1)).
  { apply Rmult_lt_0_compat; [lra | apply Rinv_0_lt_compat, Hr]. }
  destruct (Hf (eps / 2)) as [M1 H1]; [lra|].
  destruct (Hg _ He) as [M2 H2].
  exists (Rmax M1 M2). intros u Hu.
  assert (U1 : M1 < u) by (eapply Rle_lt_trans; [apply Rmax_l | exact Hu]).
  assert (U2 : M2 < u) by (eapply Rle_lt_trans; [apply Rmax_r | exact Hu]).
  specialize (H1 u U1). specialize (H2 u U2).
  replace (f u - r * g u - (l - r * m))
    with ((f u - l) + - r * (g u - m)) by ring.
  eapply Rle_lt_trans; [apply Rabs_triang|].
  rewrite Rabs_mult, Rabs_Ropp.
  assert (Rabs r * Rabs (g u - m) <= (Rabs r + 1) * Rabs (g u - m)).
  { apply Rmult_le_compat_r; [apply Rabs_pos | lra]. }
  assert ((Rabs r + 1) * Rabs (g u - m)
          < (Rabs r + 1) * (eps / 2 / (Rabs r + 1))).
  { apply Rmult_lt_compat_l; assumption. }
  replace ((Rabs r + 1) * (eps / 2 / (Rabs r + 1))) with (eps / 2) in *
    by (field; lra).
  lra.
Qed.

Lemma tends_plus_constant (f : R -> R) (h l : R) :
  (forall u, f u = h) -> tends_to_at_plus_infinity f l -> h = l.
Proof.
  intros Hc Hf.
  destruct (Req_dec h l) as [E | N]; [exact E | exfalso].
  assert (Hd : 0 < Rabs (h - l)) by (apply Rabs_pos_lt; lra).
  destruct (Hf _ Hd) as [M HM].
  specialize (HM (M + 1)). rewrite Hc in HM. lra.
Qed.

Lemma student_cdf_8_unique (T : R -> R) :
  is_student_cdf 8 T -> forall u : R, T u = student8_cdf u.
Proof.
  intros ((c & HT) & Hm & Hp).
  assert (Hc8 : 0 < student8_const).
  { unfold student8_const. apply Rmult_lt_0_compat; [lra|].
    apply Rinv_0_lt_compat. pose proof sqrt8_pos. lra. }
  set (r := c / student8_const).
  set (H := fun u => T u - r * student8_cdf u).
  assert (DH : forall u, derivable_pt_lim H u 0).
  { intros u.
    replace 0 with (c * student_kernel 8 u - r * (student8_const * student_kernel 8 u))
      by (unfold r; field; lra).
    apply (derivable_pt_lim_minus T (fun x => r * student8_cdf x)); [apply HT|].
    apply (derivable_pt_lim_scal student8_cdf), student8_cdf_derivative. }
  assert (Hconst : forall u, H u = H 0).
  { intros u.
    apply (null_derivative_1 H (fun x => exist _ 0 (DH x))).
    intros x. reflexivity. }
  assert (E0 : H 0 = 0 - r * 0).
  { apply (tends_plus_constant (fun u => H (- u))).
    - intros u. apply Hconst.
    - apply (tends_plus_combination (fun u => T (- u)) (fun u => student8_cdf (- u)));
        apply tends_minus_reflect; [exact Hm | apply student8_cdf_limit_minus]. }
  assert (E1 : H 0 = 1 - r * 1).
  { apply (tends_plus_constant H).
    - exact Hconst.
    - apply (tends_plus_combination T student8_cdf);
        [exact Hp | apply student8_cdf_limit_plus]. }
  assert (Er : r = 1) by lra.
  intros u. pose proof (Hconst u) as Hu. unfold H in Hu at 1.
  rewrite E0, Er in Hu. lra.
Qed.

Lemma student_cdf_8 (u : R) : student_cdf 8 u = student8_cdf u.
Proof.
  apply student_cdf_8_unique. unfold student_cdf.
  apply epsilon_spec. exists student8_cdf. apply student8_cdf_is_student_cdf.
Qed.

Lemma sqrt_108_bounds :
  103923048 / 10000000 < sqrt 108 < 103923049 / 10000000.
Proof.
  split.
  - rewrite <- (sqrt_square (103923048 / 10000000)) by lra.
    apply sqrt_lt_1; lra.
  - rewrite <- (sqrt_square (103923049 / 10000000)) by lra.
    apply sqrt_lt_1; lra.
Qed.

Lemma student8_cdf_at_10 : 1 - 45 / 10000000 < student8_cdf 10 < 1 - 4 / 1000000.
Proof.
  destruct sqrt_108_bounds as [Wl Wu].
  assert (Ew : sqrt 108 * sqrt 108 = 108) by (apply sqrt_sqrt; lra).
  unfold student8_cdf, student8_ratio. replace (8 + 10 * 10) with 108 by lra.
  set (w := sqrt 108) in *.
  assert (Es : (10 / w) * (10 / w) = 25 / 27).
  { replace (10 / w * (10 / w)) with (100 / (w * w)) by (field; lra).
    rewrite Ew. lra. }
  assert (EF : student8_poly (10 / w) = 65456 / 137781 * (10 / w)).
  { unfold student8_poly.
    replace ((10 / w) ^ 3) with (10 / w * (10 / w) * (10 / w)) by ring.
    replace ((10 / w) ^ 5)
      with (10 / w * (10 / w) * (10 / w * (10 / w)) * (10 / w)) by ring.
    replace ((10 / w) ^ 7)
      with (10 / w * (10 / w) * (10 / w * (10 / w)) * (10 / w * (10 / w))
            * (10 / w)) by ring.
    rewrite Es. lra. }
  rewrite EF.
  assert (Hs : 10 / (103923049 / 10000000) < 10 / w
               < 10 / (103923048 / 10000000)).
  { split.
    - apply Rmult_lt_compat_l; [lra|]. apply Rinv_lt_contravar; nra.
    - apply Rmult_lt_compat_l; [lra|]. apply Rinv_lt_contravar; nra. }
  lra.
Qed.

Lemma scenario2_p :
  8 / 1000000 < two_sided_student 8 (-10) < 9 / 1000000.
Proof.
  unfold two_sided_student. rewrite student_cdf_8.
  replace (Rabs (-10)) with 10
    by (unfold Rabs; destruct (Rcase_abs (-10)); lra).
  pose proof student8_cdf_at_10. lra.
Qed.

(** ** Sanity of the two laws *)

Lemma norm_cdf_0 : norm_cdf 0 = 1 / 2.
Proof.
  unfold norm_cdf. rewrite RiemannInt_P9. unfold Rdiv. ring.
Qed.

Lemma student_cdf_8_0 : student_cdf 8 0 = 1 / 2.
Proof.
  rewrite student_cdf_8. unfold student8_cdf, student8_ratio, student8_poly.
  replace (0 / sqrt (8 + 0 * 0)) with 0 by (unfold Rdiv; ring).
  simpl. lra.
Qed.

(** ** Claims about the two tests *)

(** C8.  For valid counts and a pooled standard error that is not zero, the
    z statistic changes sign when the two groups are swapped and the
    two-sided p-value stays the same. *)
Theorem z_test_antisymmetric (kA kB nA nB : Z) :
  (0 <= kA <= nA)%Z -> (0 <= kB <= nB)%Z -> (0 < nA)%Z -> (0 < nB)%Z ->
  pooled_se (kA, kB) (nA, nB) <> 0 ->
  fst (proportions_ztest (kA, kB) (nA, nB))
  = - fst (proportions_ztest (kB, kA) (nB, nA))
  /\ snd (proportions_ztest (kA, kB) (nA, nB))
     = snd (proportions_ztest (kB, kA) (nB, nA)).
Proof.
  intros _ _ _ _ Hse.
  assert (E : z_statistic (kA, kB) (nA, nB) = - z_statistic (kB, kA) (nB, nA)).
  { unfold z_statistic. rewrite (pooled_se_swap kA kB nA nB). cbn [fst snd].
    unfold Rdiv. ring. }
  unfold proportions_ztest, two_sided_normal; cbn [fst snd].
  split; [exact E|]. rewrite E, Rabs_Ropp. reflexivity.
Qed.

Lemma z_test_antisymmetric_witness :
  fst (proportions_ztest (8, 5)%Z (10, 10)%Z)
  = - fst (proportions_ztest (5, 8)%Z (10, 10)%Z)
  /\ snd (proportions_ztest (8, 5)%Z (10, 10)%Z)
     = snd (proportions_ztest (5, 8)%Z (10, 10)%Z).
Proof.
  apply z_test_antisymmetric; try lia.
  rewrite scenario1_se_sqrt. apply Rgt_not_eq, sqrt_lt_R0. lra.
Defined.

(** C9.  For two samples of at least two observations each and a standard
    error that is not zero, the Welch-Satterthwaite degrees of freedom lie
    between [min(n_A, n_B) - 1] and [n_A + n_B - 2]. *)
Theorem welch_df_bounds (a b : list R) :
  (2 <= len a)%Z -> (2 <= len b)%Z -> welch_se a b <> 0 ->
  Rmin (IZR (len a)) (IZR (len b)) - 1 <= welch_df a b
  <= IZR (len a) + IZR (len b) - 2.
Proof.
  intros Ha Hb Hse.
  pose proof (var_nonneg a Ha) as Va. pose proof (var_nonneg b Hb) as Vb.
  apply IZR_le in Ha, Hb.
  assert (Hva : 0 <= var a / IZR (len a))
    by (apply Rmult_le_pos; [lra | apply Rlt_le, Rinv_0_lt_compat; lra]).
  assert (Hvb : 0 <= var b / IZR (len b))
    by (apply Rmult_le_pos; [lra | apply Rlt_le, Rinv_0_lt_compat; lra]).
  assert (Hpos : 0 < var a / IZR (len a) + var b / IZR (len b)).
  { destruct (Rle_lt_or_eq_dec 0 _ (Rplus_le_le_0_compat _ _ Hva Hvb))
      as [H | H]; [exact H|].
    exfalso. apply Hse. unfold welch_se. rewrite <- H. apply sqrt_0. }
  unfold welch_df. rewrite welch_se_pow4 by lra.
  destruct (satterthwaite_bounds _ _ (IZR (len a) - 1) (IZR (len b) - 1)
              Hva Hvb Hpos) as [Hlo Hhi]; try lra.
  split; [|lra].
  replace (Rmin (IZR (len a)) (IZR (len b)) - 1)
    with (Rmin (IZR (len a) - 1) (IZR (len b) - 1)); [exact Hlo|].
  unfold Rmin. destruct (Rle_dec (IZR (len a) - 1) (IZR (len b) - 1)),
    (Rle_dec (IZR (len a)) (IZR (len b))); lra.
Qed.

Lemma welch_df_bounds_witness :
  Rmin (IZR (len scenario2_A)) (IZR (len scenario2_B)) - 1
  <= welch_df scenario2_A scenario2_B
  <= IZR (len scenario2_A) + IZR (len scenario2_B) - 2.
Proof.
  apply welch_df_bounds.
  - unfold len, scenario2_A. simpl. lia.
  - unfold len, scenario2_B. simpl. lia.
  - rewrite scenario2_se. lra.
Defined.

(** C3.  On 8 successes out of 10 against 5 out of 10 the z-test gives the
    pooled proportion 0.65, a pooled standard error between 0.21330 and
    0.21331, a statistic between 1.4064 and 1.4065 and a two-sided p-value
    between 0.158 and 0.160, which is not significant at the level 0.05; the
    script passes exactly these counts for such a table. *)
Theorem scenario1_proportion_test :
  pooled_proportion (8, 5)%Z (10, 10)%Z = 65 / 100
  /\ 21330 / 100000 < pooled_se (8, 5)%Z (10, 10)%Z < 21331 / 100000
  /\ 14064 / 10000 < fst (proportions_ztest (8, 5)%Z (10, 10)%Z)
     < 14065 / 10000
  /\ 158 / 1000 < snd (proportions_ztest (8, 5)%Z (10, 10)%Z) < 160 / 1000
  /\ renewal_is_significant ALPHA (snd (proportions_ztest (8, 5)%Z (10, 10)%Z))
     = false
  /\ p_value_prop_of proportions_ztest scenario1
     = snd (proportions_ztest (8, 5)%Z (10, 10)%Z).
Proof.
  split; [exact scenario1_pooled|].
  split; [exact scenario1_se|].
  split; [exact scenario1_z|].
  split; [exact scenario1_p|].
  split; [|reflexivity].
  apply Rltb_false. pose proof scenario1_p as H. unfold ALPHA.
  cbn [snd proportions_ztest]. lra.
Qed.

(** C4.  On the two samples of scenario 2, each of five observations,
    Welch's test gives the statistic -10, exactly 8 degrees of freedom and a
    two-sided p-value between 0.000008 and 0.000009, below 0.001 and
    significant at the level 0.05. *)
Theorem scenario2_welch_test :
  (2 <= len scenario2_A)%Z /\ (2 <= len scenario2_B)%Z
  /\ fst (ttest_ind scenario2_A scenario2_B) = -10
  /\ welch_df scenario2_A scenario2_B = 8
  /\ 8 / 1000000 < snd (ttest_ind scenario2_A scenario2_B) < 9 / 1000000
  /\ snd (ttest_ind scenario2_A scenario2_B) < 1 / 1000
  /\ arr_is_significant ALPHA (snd (ttest_ind scenario2_A scenario2_B))
     = true.
Proof.
  assert (P : 8 / 1000000 < snd (ttest_ind scenario2_A scenario2_B)
              < 9 / 1000000).
  { unfold ttest_ind. cbn [snd]. rewrite scenario2_df, scenario2_t.
    exact scenario2_p. }
  split; [unfold len, scenario2_A; simpl; lia|].
  split; [unfold len, scenario2_B; simpl; lia|].
  split; [exact scenario2_t|].
  split; [exact scenario2_df|].
  split; [exact P|].
  split; [lra|].
  apply Rltb_true. unfold ALPHA. lra.
Qed.

(** * Further properties of the script *)

(** ** Vocabulary *)

(** The four headings a final recommendation can open with, and the four
    actions it can close with. *)
Definition is_recommendation (l : line) : bool :=
  match l with
  | ClearWinner _ | MixedResults | OnlyOneMetric | NeitherMetric => true
  | _ => false
  end.

Definition is_action (l : line) : bool :=
  match l with
  | ActionImplement _ | ActionStakeholders | ActionFurtherData
  | ActionKeepDefault => true
  | _ => false
  end.

Definition other_group (g : group) : group :=
  match g with GroupA => GroupB | GroupB => GroupA end.

(** [g] has the strictly higher of the two values [a] (group A) and [b]
    (group B). *)
Definition strictly_higher (g : group) (a b : R) : Prop :=
  match g with GroupA => a > b | GroupB => b > a end.

(** A row of one of the two groups the script looks at. *)
Definition recognized (r : row) : bool :=
  String.eqb (Test_Group r) "A" || String.eqb (Test_Group r) "B".

(** ** How a run ends *)

(** X1.  How a run ends is decided by the file and the labels alone: a file
    that is not found is a silent exit; a table without a row of group "A"
    is an uncaught [KeyError "A"]; one with "A" but no "B" an uncaught
    [KeyError "B"]; every other table is analysed to the end. *)
Theorem run_ending alpha pz tind (file : option DataFrame) :
  ending (run alpha pz tind file)
  = match file with
    | None => SilentExit
    | Some df =>
        if in_dec string_dec "A"%string (map Test_Group df) then
          if in_dec string_dec "B"%string (map Test_Group df) then Finished
          else UnhandledCrash (KeyError "B")
        else UnhandledCrash (KeyError "A")
    end.
Proof.
  destruct file as [df |]; [|reflexivity].
  destruct (in_dec string_dec "A"%string (map Test_Group df)) as [HA | HA].
  - destruct (in_dec string_dec "B"%string (map Test_Group df)) as [HB | HB].
    + rewrite (run_returns _ _ _ df HA HB). reflexivity.
    + rewrite (run_raises _ _ _ df (or_intror HB)).
      destruct (in_dec string_dec "A"%string (map Test_Group df));
        [reflexivity | contradiction].
  - rewrite (run_raises _ _ _ df (or_introl HA)).
    destruct (in_dec string_dec "A"%string (map Test_Group df));
      [contradiction | reflexivity].
Qed.

(** ** The shape of the final recommendation *)

(** X2.  The final interpretation always returns and always prints five
    lines: its heading, then exactly one recommendation and exactly one
    action among them. *)
Theorem verdict_shape (alpha pp pa rA rB aA aB : R) :
  let out := output (final_interpretation alpha pp pa rA rB aA aB) in
  snd (final_interpretation alpha pp pa rA rB aA aB) = inr tt
  /\ List.length out = 5%nat
  /\ hd_error out = Some HeadingFinal
  /\ List.length (filter is_recommendation out) = 1%nat
  /\ List.length (filter is_action out) = 1%nat.
Proof.
  rewrite final_interpretation_cases.
  destruct (Rltb pp alpha), (Rltb pa alpha), (Rgtb rA rB), (Rgtb aA aB),
    (Rgtb rB rA), (Rgtb aB aA); repeat split; reflexivity.
Qed.

(** Membership in a verdict, branch by branch. *)
Ltac in_verdict :=
  rewrite final_interpretation_cases; unfold winner;
  compare_floats; cbn;
  repeat match goal with
         | |- _ <-> _ => split
         | |- _ -> _ => intro
         | H : _ \/ _ |- _ => destruct H
         | H : _ /\ _ |- _ => destruct H
         | H : False |- _ => destruct H
         | H : @eq line _ _ |- _ => inversion H; clear H; subst
         | H : @eq group _ _ |- _ => discriminate H
         end;
  try lra; auto 10.

(** X3.  Group [g] is declared the clear winner exactly when both tests are
    significant and [g] has the strictly higher renewal rate and the
    strictly higher average ARR; its strategy is recommended for
    implementation in that case and in no other. *)
Theorem clear_winner_iff (alpha pp pa rA rB aA aB : R) (g : group) :
  let out := output (final_interpretation alpha pp pa rA rB aA aB) in
  (In (ClearWinner g) out
   <-> pp < alpha /\ pa < alpha
       /\ strictly_higher g rA rB /\ strictly_higher g aA aB)
  /\ (In (ActionImplement g) out <-> In (ClearWinner g) out).
Proof.
  cbv zeta. destruct g; unfold strictly_higher; split; in_verdict.
Qed.

(** X4.  The "mixed results" recommendation, and with it the request that
    stakeholders decide, is printed exactly when both tests are significant
    and neither group is strictly higher on both metrics. *)
Theorem mixed_results_iff (alpha pp pa rA rB aA aB : R) :
  let out := output (final_interpretation alpha pp pa rA rB aA aB) in
  (In MixedResults out
   <-> pp < alpha /\ pa < alpha
       /\ ~ (rA > rB /\ aA > aB) /\ ~ (rB > rA /\ aB > aA))
  /\ (In ActionStakeholders out <-> In MixedResults out).
Proof.
  cbv zeta. split; in_verdict.
Qed.

(** X5.  "Only one metric" and the advice to collect further data are
    printed exactly when one p-value is below alpha and the other is not;
    "neither metric" and the advice to keep the default strategy exactly
    when no p-value is below alpha. *)
Theorem one_or_neither_iff (alpha pp pa rA rB aA aB : R) :
  let out := output (final_interpretation alpha pp pa rA rB aA aB) in
  (In OnlyOneMetric out
   <-> (pp < alpha /\ alpha <= pa) \/ (alpha <= pp /\ pa < alpha))
  /\ (In ActionFurtherData out <-> In OnlyOneMetric out)
  /\ (In NeitherMetric out <-> alpha <= pp /\ alpha <= pa)
  /\ (In ActionKeepDefault out <-> In NeitherMetric out).
Proof.
  cbv zeta. (split; [|split; [|split]]); in_verdict.
Qed.

(** X6.  The verdict never names a group that is strictly lower on the
    metric it is named for: a clear winner is strictly higher on both
    metrics, and a winner named for a single significant metric is printed
    with that metric's two raw values, the other group not being strictly
    higher. *)
Theorem never_names_the_lower_group (alpha pp pa rA rB aA aB : R)
        (g : group) (x y : R) :
  let out := output (final_interpretation alpha pp pa rA rB aA aB) in
  (In (ClearWinner g) out ->
   strictly_higher g rA rB /\ strictly_higher g aA aB)
  /\ (In (RenewalSignificant g x y) out ->
      x = rA /\ y = rB /\ pp < alpha
      /\ ~ strictly_higher (other_group g) rA rB)
  /\ (In (ArrSignificant g x y) out ->
      x = aA /\ y = aB /\ pa < alpha
      /\ ~ strictly_higher (other_group g) aA aB).
Proof.
  cbv zeta. destruct g; unfold strictly_higher, other_group;
    (split; [|split]); in_verdict.
Qed.

(** X7.  When neither metric is tied, exchanging the raw values of the two
    groups exchanges the groups the verdict names, line by line. *)
Theorem verdict_swaps_with_groups (alpha pp pa rA rB aA aB : R) :
  rA <> rB -> aA <> aB ->
  map names_group (output (final_interpretation alpha pp pa rB rA aB aA))
  = map (option_map other_group)
        (map names_group
             (output (final_interpretation alpha pp pa rA rB aA aB))).
Proof.
  intros Hr Ha. rewrite !final_interpretation_cases. unfold winner.
  compare_floats; try lra; reflexivity.
Qed.

Lemma verdict_swaps_with_groups_witness :
  map names_group
      (output (final_interpretation ALPHA (1/100) (1/2) (5/10) (6/10) 90 100))
  = map (option_map other_group)
        (map names_group
             (output (final_interpretation ALPHA (1/100) (1/2)
                        (6/10) (5/10) 100 90))).
Proof.
  apply verdict_swaps_with_groups; lra.
Defined.

(** ** Group counts *)

Lemma select_cons (g : string) (r : row) (df : DataFrame) :
  select g (r :: df)
  = if String.eqb (Test_Group r) g then r :: select g df else select g df.
Proof. reflexivity. Qed.

Lemma len_cons {T : Type} (x : T) (l : list T) : len (x :: l) = (len l + 1)%Z.
Proof. unfold len. cbn [List.length]. lia. Qed.

Lemma len_nonneg {T : Type} (l : list T) : (0 <= len l)%Z.
Proof. unfold len. lia. Qed.

Lemma present_iff_counted (g : string) (df : DataFrame) :
  In g (map Test_Group df) <-> (0 < len (select g df))%Z.
Proof.
  induction df as [| r df IH]; [cbn; unfold len; cbn; lia|].
  rewrite select_cons. cbn [map In].
  destruct (String.eqb (Test_Group r) g) eqn:E.
  - apply String.eqb_eq in E. rewrite len_cons.
    pose proof (len_nonneg (select g df)). split; [lia | auto].
  - apply String.eqb_neq in E. rewrite <- IH. tauto.
Qed.

(** X8.  Looking a label up in [value_counts] gives the number of rows of
    that group when there is at least one, and fails (a [KeyError]) when
    there is none: no label is ever listed with a count of zero. *)
Theorem value_counts_lookup (g : string) (df : DataFrame) :
  loc g (value_counts df)
  = if (0 <? len (select g df))%Z then Some (len (select g df)) else None.
Proof.
  unfold value_counts.
  destruct (0 <? len (select g df))%Z eqn:E.
  - apply (loc_present (fun k => len (select k df))),
      present_iff_counted, Z.ltb_lt, E.
  - apply (loc_absent (fun k => len (select k df))). rewrite present_iff_counted. apply Z.ltb_ge in E. lia.
Qed.

(** X10.  On a table whose rows all belong to "A" or "B", the two group
    counts add up to [total_obs], the denominator of the balance check. *)
Theorem two_groups_partition (df : DataFrame) :
  forallb recognized df = true ->
  (len (select "A" df) + len (select "B" df))%Z = len df.
Proof.
  induction df as [| r df IH]; [reflexivity|].
  cbn [forallb]. intros H. apply andb_prop in H as [Hr Hdf].
  rewrite !select_cons, len_cons, <- (IH Hdf). unfold recognized in Hr.
  destruct (String.eqb (Test_Group r) "A") eqn:EA.
  - apply String.eqb_eq in EA. rewrite EA. cbn [String.eqb].
    rewrite len_cons. cbn. lia.
  - cbn [orb] in Hr. rewrite Hr, len_cons. lia.
Qed.

Lemma two_groups_partition_witness :
  (len (select "A" (two_groups 3 2)) + len (select "B" (two_groups 3 2)))%Z
  = len (two_groups 3 2).
Proof.
  apply two_groups_partition. reflexivity.
Defined.

(** ** The balance check in integers *)

(** X11.  On a table with at least one row the balance check is an integer
    comparison: it warns exactly when [20 * |count_A - count_B|] exceeds
    [total_obs]; and it does not depend on the order of the two counts. *)
Theorem unbalanced_in_integers (count_A count_B total_obs : Z) :
  (0 < total_obs)%Z ->
  unbalanced count_A count_B total_obs
  = (total_obs <? 20 * Z.abs (count_A - count_B))%Z
  /\ unbalanced count_B count_A total_obs
     = unbalanced count_A count_B total_obs.
Proof.
  intros Hn.
  assert (Hsym : unbalanced count_B count_A total_obs
                 = unbalanced count_A count_B total_obs).
  { unfold unbalanced. rewrite !minus_IZR, (Rabs_minus_sym (IZR count_B)).
    reflexivity. }
  split; [|exact Hsym].
  assert (E : Rabs (IZR count_A - IZR count_B)
              = IZR (Z.abs (count_A - count_B)))
    by (rewrite <- minus_IZR; symmetry; apply abs_IZR).
  destruct (total_obs <? 20 * Z.abs (count_A - count_B))%Z eqn:L.
  - apply (unbalanced_spec _ _ _ Hn). rewrite E.
    apply Z.ltb_lt, IZR_lt in L. rewrite mult_IZR in L. lra.
  - apply not_true_is_false. rewrite (unbalanced_spec _ _ _ Hn), E.
    apply Z.ltb_ge, IZR_le in L. rewrite mult_IZR in L. lra.
Qed.

Lemma unbalanced_in_integers_witness :
  unbalanced 55 45 100 = (100 <? 20 * Z.abs (55 - 45))%Z
  /\ unbalanced 45 55 100 = unbalanced 55 45 100.
Proof.
  apply unbalanced_in_integers. lia.
Defined.

(** ** Renewal counts and renewal rates *)

Lemma sumR_IZR (l : list Z) : sumR (map IZR l) = IZR (sumZ l).
Proof.
  induction l as [| x l IH]; [reflexivity|].
  cbn [map sumR sumZ fold_right]. fold (sumR (map IZR l)). fold (sumZ l).
  rewrite IH, plus_IZR. reflexivity.
Qed.

Lemma renewal_rate_quotient (rows : DataFrame) :
  Renewal_Rate (agg rows)
  = IZR (sumZ (map Renewal_Status rows))
    / IZR (len (map Renewal_Status rows)).
Proof.
  unfold agg, mean; cbn [Renewal_Rate].
  rewrite <- sumR_IZR, map_map. unfold len. rewrite !length_map.
  reflexivity.
Qed.

Lemma binary_sum_bounds (rows : DataFrame) :
  (forall r, In r rows -> Renewal_Status r = 0%Z \/ Renewal_Status r = 1%Z) ->
  (0 <= sumZ (map Renewal_Status rows) <= len (map Renewal_Status rows))%Z.
Proof.
  induction rows as [| r rows IH]; intros H; [cbn; lia|].
  cbn [map sumZ fold_right]. fold (sumZ (map Renewal_Status rows)).
  rewrite len_cons.
  assert (Hr : Renewal_Status r = 0%Z \/ Renewal_Status r = 1%Z)
    by (apply H; left; reflexivity).
  assert (IH' := IH (fun r' Hr' => H r' (or_intror Hr'))).
  lia.
Qed.

(** X12.  For a group that is not empty and whose renewal statuses are 0
    or 1, the counts the script passes to the z-test satisfy
    [0 <= renewals <= nobs] and [0 < nobs], and the renewal rate of the
    descriptive statistics is [renewals / nobs], between 0 and 1. *)
Theorem renewal_counts_are_valid (rows : DataFrame) :
  rows <> [] ->
  (forall r, In r rows -> Renewal_Status r = 0%Z \/ Renewal_Status r = 1%Z) ->
  let renewals := sumZ (map Renewal_Status rows) in
  let nobs := len (map Renewal_Status rows) in
  (0 <= renewals <= nobs)%Z /\ (0 < nobs)%Z
  /\ Renewal_Rate (agg rows) = IZR renewals / IZR nobs
  /\ 0 <= Renewal_Rate (agg rows) <= 1.
Proof.
  intros Hne Hbin. cbv zeta.
  pose proof (binary_sum_bounds rows Hbin) as Hb.
  assert (Hn : (0 < len (map Renewal_Status rows))%Z).
  { destruct rows; [congruence|]. cbn [map]. rewrite len_cons.
    pose proof (len_nonneg (map Renewal_Status rows)). lia. }
  split; [exact Hb|]. split; [exact Hn|].
  split; [apply renewal_rate_quotient|].
  rewrite renewal_rate_quotient.
  destruct Hb as [H0 H1]. apply IZR_le in H0, H1. apply IZR_lt in Hn.
  split.
  - apply Rmult_le_pos; [exact H0 | apply Rlt_le, Rinv_0_lt_compat, Hn].
  - apply Rmult_le_reg_r with (IZR (len (map Renewal_Status rows)));
      [exact Hn|].
    replace (IZR (sumZ (map Renewal_Status rows))
             / IZR (len (map Renewal_Status rows))
             * IZR (len (map Renewal_Status rows)))
      with (IZR (sumZ (map Renewal_Status rows))) by (field; lra).
    lra.
Qed.

Lemma renewal_counts_are_valid_witness :
  (0 <= sumZ (map Renewal_Status (select "A" scenario1))
   <= len (map Renewal_Status (select "A" scenario1)))%Z
  /\ (0 < len (map Renewal_Status (select "A" scenario1)))%Z
  /\ Renewal_Rate (agg (select "A" scenario1))
     = IZR (sumZ (map Renewal_Status (select "A" scenario1)))
       / IZR (len (map Renewal_Status (select "A" scenario1)))
  /\ 0 <= Renewal_Rate (agg (select "A" scenario1)) <= 1.
Proof.
  apply (renewal_counts_are_valid (select "A" scenario1)).
  - discriminate.
  - intros r Hr. cbn in Hr.
    repeat (destruct Hr as [<- | Hr]; [cbn; auto|]). destruct Hr.
Defined.

(** ** Rows of other groups *)

Lemma select_recognized (g : string) (df : DataFrame) :
  g = "A"%string \/ g = "B"%string ->
  select g (filter recognized df) = select g df.
Proof.
  intros Hg. induction df as [| r df IH]; [reflexivity|].
  cbn [filter]. unfold recognized at 1.
  destruct (String.eqb (Test_Group r) "A") eqn:EA;
    destruct (String.eqb (Test_Group r) "B") eqn:EB; cbn [orb];
    rewrite ?select_cons, ?IH; try reflexivity.
  destruct Hg as [-> | ->]; [rewrite EA | rewrite EB]; reflexivity.
Qed.

(** X13.  Rows of groups other than "A" and "B" never reach the statistics:
    the two group summaries, the z-test step and the t-test step are the
    same on a table and on the table without such rows. *)
Theorem other_groups_are_ignored alpha pz tind (df : DataFrame)
        (rA rB : R) (sA sB : group_stats) :
  agg (select "A" (filter recognized df)) = agg (select "A" df)
  /\ agg (select "B" (filter recognized df)) = agg (select "B" df)
  /\ z_test alpha pz (filter recognized df) rA rB = z_test alpha pz df rA rB
  /\ t_test alpha tind (filter recognized df) sA sB
     = t_test alpha tind df sA sB.
Proof.
  unfold z_test, t_test.
  rewrite !(select_recognized "A" df) by (left; reflexivity).
  rewrite !(select_recognized "B" df) by (right; reflexivity).
  repeat split; reflexivity.
Qed.

(** ** The tests and the direction the verdict names *)

Lemma welch_se_swap (a b : list R) : welch_se b a = welch_se a b.
Proof. unfold welch_se. f_equal. apply Rplus_comm. Qed.

(** X14.  For two samples of at least two observations and a standard error
    that is not zero, exchanging the samples changes the sign of Welch's
    statistic and leaves the degrees of freedom and the p-value unchanged. *)
Theorem welch_test_antisymmetric (a b : list R) :
  (2 <= len a)%Z -> (2 <= len b)%Z -> welch_se a b <> 0 ->
  fst (ttest_ind a b) = - fst (ttest_ind b a)
  /\ welch_df a b = welch_df b a
  /\ snd (ttest_ind a b) = snd (ttest_ind b a).
Proof.
  intros _ _ _.
  assert (Et : welch_t a b = - welch_t b a).
  { unfold welch_t. rewrite (welch_se_swap a b). unfold Rdiv. ring. }
  assert (Ed : welch_df a b = welch_df b a).
  { unfold welch_df. rewrite (welch_se_swap a b). f_equal. apply Rplus_comm. }
  unfold ttest_ind, two_sided_student; cbn [fst snd].
  split; [exact Et|]. split; [exact Ed|].
  rewrite Ed, Et, Rabs_Ropp. reflexivity.
Qed.

Lemma welch_test_antisymmetric_witness :
  fst (ttest_ind scenario2_A scenario2_B)
  = - fst (ttest_ind scenario2_B scenario2_A)
  /\ welch_df scenario2_A scenario2_B = welch_df scenario2_B scenario2_A
  /\ snd (ttest_ind scenario2_A scenario2_B)
     = snd (ttest_ind scenario2_B scenario2_A).
Proof.
  apply welch_test_antisymmetric.
  - unfold len, scenario2_A. simpl. lia.
  - unfold len, scenario2_B. simpl. lia.
  - rewrite scenario2_se. lra.
Defined.

(** X15.  When the two groups have the same renewal rate and the pooled
    standard error is not zero, the z-test gives the statistic 0 and the
    p-value 1, which is not significant at any level up to 1. *)
Theorem equal_rates_are_never_significant (kA kB nA nB : Z) (alpha : R) :
  (0 < nA)%Z -> (0 < nB)%Z -> (kA * nB = kB * nA)%Z ->
  pooled_se (kA, kB) (nA, nB) <> 0 -> alpha <= 1 ->
  proportions_ztest (kA, kB) (nA, nB) = (0, 1)
  /\ renewal_is_significant alpha (snd (proportions_ztest (kA, kB) (nA, nB)))
     = false.
Proof.
  intros HA HB Hk Hse Ha.
  apply IZR_lt in HA, HB.
  assert (Ez : z_statistic (kA, kB) (nA, nB) = 0).
  { unfold z_statistic; cbn [fst snd].
    replace (IZR kA / IZR nA - IZR kB / IZR nB)
      with ((IZR (kA * nB) - IZR (kB * nA)) / (IZR nA * IZR nB))
      by (rewrite !mult_IZR; field; lra).
    rewrite Hk. unfold Rdiv. ring. }
  assert (Ep : two_sided_normal 0 = 1).
  { unfold two_sided_normal, norm_sf. rewrite Rabs_R0, norm_cdf_0. lra. }
  unfold proportions_ztest. rewrite Ez, Ep. split; [reflexivity|].
  cbn [snd]. apply Rltb_false, Ha.
Qed.

Lemma equal_rates_are_never_significant_witness :
  proportions_ztest (5, 5)%Z (10, 10)%Z = (0, 1)
  /\ renewal_is_significant ALPHA (snd (proportions_ztest (5, 5)%Z (10, 10)%Z))
     = false.
Proof.
  apply equal_rates_are_never_significant; try lia.
  - unfold pooled_se, pooled_proportion; cbn [fst snd].
    apply Rgt_not_eq, sqrt_lt_R0. simpl. lra.
  - unfold ALPHA. lra.
Defined.

Lemma quotient_sign (x s : R) : 0 < s -> (0 < x / s <-> 0 < x).
Proof.
  intros Hs. split; intros H.
  - apply Rmult_lt_reg_r with (/ s); [apply Rinv_0_lt_compat, Hs|].
    rewrite Rmult_0_l. exact H.
  - apply Rmult_lt_0_compat; [exact H | apply Rinv_0_lt_compat, Hs].
Qed.

Lemma sqrt_nonzero_pos (x : R) : sqrt x <> 0 -> 0 < sqrt x.
Proof. intros H. pose proof (sqrt_pos x). lra. Qed.

(** X16.  On every table for which the pooled standard error is not zero,
    the sign of the z statistic computed from the counts the script passes
    agrees with the comparison of the raw renewal rates the verdict uses to
    name a winner. *)
Theorem z_sign_matches_rates (df : DataFrame) :
  let count := (sumZ (map Renewal_Status (select "A" df)),
                sumZ (map Renewal_Status (select "B" df))) in
  let nobs := (len (map Renewal_Status (select "A" df)),
               len (map Renewal_Status (select "B" df))) in
  pooled_se count nobs <> 0 ->
  (0 < z_statistic count nobs
   <-> Renewal_Rate (agg (select "A" df)) > Renewal_Rate (agg (select "B" df)))
  /\ (z_statistic count nobs < 0
      <-> Renewal_Rate (agg (select "B" df))
          > Renewal_Rate (agg (select "A" df))).
Proof.
  cbv zeta. intros Hse. apply sqrt_nonzero_pos in Hse.
  fold (pooled_se
          (sumZ (map Renewal_Status (select "A" df)),
           sumZ (map Renewal_Status (select "B" df)))
          (len (map Renewal_Status (select "A" df)),
           len (map Renewal_Status (select "B" df)))) in Hse.
  rewrite !renewal_rate_quotient. unfold z_statistic. cbn [fst snd].
  set (pA := IZR (sumZ (map Renewal_Status (select "A" df)))
             / IZR (len (map Renewal_Status (select "A" df)))).
  set (pB := IZR (sumZ (map Renewal_Status (select "B" df)))
             / IZR (len (map Renewal_Status (select "B" df)))).
  split.
  - rewrite quotient_sign by exact Hse. lra.
  - replace ((pA - pB) / pooled_se
        (sumZ (map Renewal_Status (select "A" df)),
         sumZ (map Renewal_Status (select "B" df)))
        (len (map Renewal_Status (select "A" df)),
         len (map Renewal_Status (select "B" df))))
      with (- ((pB - pA) / pooled_se
        (sumZ (map Renewal_Status (select "A" df)),
         sumZ (map Renewal_Status (select "B" df)))
        (len (map Renewal_Status (select "A" df)),
         len (map Renewal_Status (select "B" df)))))
      by (unfold Rdiv; ring).
    pose proof (quotient_sign (pB - pA) _ Hse) as Q. lra.
Qed.

Lemma z_sign_matches_rates_witness :
  (0 < z_statistic
         (sumZ (map Renewal_Status (select "A" scenario1)),
          sumZ (map Renewal_Status (select "B" scenario1)))
         (len (map Renewal_Status (select "A" scenario1)),
          len (map Renewal_Status (select "B" scenario1)))
   <-> Renewal_Rate (agg (select "A" scenario1))
       > Renewal_Rate (agg (select "B" scenario1)))
  /\ (z_statistic
        (sumZ (map Renewal_Status (select "A" scenario1)),
         sumZ (map Renewal_Status (select "B" scenario1)))
        (len (map Renewal_Status (select "A" scenario1)),
         len (map Renewal_Status (select "B" scenario1))) < 0
      <-> Renewal_Rate (agg (select "B" scenario1))
          > Renewal_Rate (agg (select "A" scenario1))).
Proof.
  apply (z_sign_matches_rates scenario1).
  change (pooled_se (8, 5)%Z (10, 10)%Z <> 0).
  rewrite scenario1_se_sqrt. apply Rgt_not_eq, sqrt_lt_R0. lra.
Defined.

(** * A tied metric, and the level of the script *)

(** ** The area under a continuous function *)

Section Area.

Variable f : R -> R.
Hypothesis f_continuous : continuity f.

Definition area_integrable (a b : R) : Riemann_integrable f a b.
Proof.
  destruct (Rle_dec a b) as [Hab | Hab].
  - apply continuity_implies_RiemannInt;
      [exact Hab | intros; apply f_continuous].
  - apply RiemannInt_P1, continuity_implies_RiemannInt;
      [lra | intros; apply f_continuous].
Defined.

(** The area under [f] between 0 and [x]. *)
Definition area (x : R) : R := RiemannInt (area_integrable 0 x).



End Area.

(** Functions with a known derivative. *)




Lemma student_kernel_continuous (nu : R) :
  0 < nu -> continuity (student_kernel nu).
Proof.
  intros Hnu u. unfold student_kernel, Rpower.
  assert (0 < 1 + u * u / nu).
  { assert (0 <= u * u / nu).
    { apply Rmult_le_pos; [nra | apply Rlt_le, Rinv_0_lt_compat, Hnu]. }
    lra. }
  reg. apply derivable_continuous_pt.
  exists (/ (1 + u * u * / nu)). apply derivable_pt_lim_ln. exact H.
Qed.


(** ** Student's law with at least one degree of freedom *)

Section Student.

Variable nu : R.
Hypothesis nu_ge_1 : 1 <= nu.

Let k : R -> R := student_kernel nu.

Lemma student_kernel_continuous_1 : continuity k.
Proof. apply student_kernel_continuous. lra. Qed.





Let A : R -> R := area k student_kernel_continuous_1.








End Student.






(** Equal raw values give the statistic 0 and the p-value 1. *)



(** ** What a finished run prints about significance *)

Section RunFlags.

Variable alpha : R.
Variable pz : Z * Z -> Z * Z -> R * R.
Variable tind : list R -> list R -> R * R.
Variable df : DataFrame.
Hypothesis has_A : In "A"%string (map Test_Group df).
Hypothesis has_B : In "B"%string (map Test_Group df).

Let out : list line := output (run alpha pz tind (Some df)).




End RunFlags.












